(** * WA_MACE_FT: the two driver scripts, embedded and verified

    [scripts/model_evaulation.py] sweeps an external evaluation entry point
    over a list of training-set sizes read from the command line;
    [scripts/caco3_MD.py] prepares a CaCO3 system and runs a thermostatted
    molecular-dynamics trajectory with two periodic observers.

    Both scripts are glue around external libraries.  The embedding keeps the
    statements of the scripts as they are written and makes every library
    boundary explicit: what a library call does is either a documented model
    of that library (Python's [int], [str], [argparse], numpy's arithmetic)
    or a variable of a section (the evaluation entry point, the calculator,
    the integrator). *)

From Stdlib Require Import ZArith NArith List String Ascii Bool Lia.
From Stdlib Require Import DecimalString DecimalZ.
From Stdlib Require Import QArith Qround Floats.
Import ListNotations.

Local Open Scope string_scope.
Local Open Scope Z_scope.

(* ===================================================================== *)
(** * Python: exceptions, results, [str] and [int]                        *)
(* ===================================================================== *)

Module Py.

(** What a statement can raise.  [SystemExit] carries its status; every other
    exception is identified by its class name. *)
Inductive exn : Type :=
| SystemExit (status : Z)
| Exception (class_name : string).

Inductive result (A : Type) : Type :=
| Ok (a : A)
| Raise (e : exn).
Arguments Ok {A} a.
Arguments Raise {A} e.

(** Exit status of the interpreter when the main module ends with [r]: 0 on
    a normal end, the carried status on [SystemExit], 1 on any other
    uncaught exception (the traceback path). *)
Definition exit_status {A} (r : result A) : Z :=
  match r with
  | Ok _ => 0
  | Raise (SystemExit c) => c
  | Raise (Exception _) => 1
  end.

(** [str(z)] for an [int], which is also what an f-string field [{z}]
    renders: decimal digits, a leading [-] for negatives, ["0"] for zero. *)
Definition str (z : Z) : string := NilZero.string_of_int (Z.to_int z).

(** [str.isspace] on ASCII: TAB..CR, FS..US and the space. *)
Definition isspace (c : ascii) : bool :=
  let n := N_of_ascii c in
  (((9 <=? n) && (n <=? 13)) || ((28 <=? n) && (n <=? 32)))%N.

Fixpoint lstrip (s : string) : string :=
  match s with
  | EmptyString => EmptyString
  | String c r => if isspace c then lstrip r else s
  end.

Fixpoint rstrip (s : string) : string :=
  match s with
  | EmptyString => EmptyString
  | String c r =>
      let r' := rstrip r in
      if isspace c && (r' =? "")%string then EmptyString else String c r'
  end.

Definition strip (s : string) : string := rstrip (lstrip s).

(** The digit part of an integer literal: decimal digits, single underscores
    allowed between two digits.  [need_digit] holds at the start and right
    after an underscore. *)
Fixpoint digits (need_digit : bool) (s : string) : option Decimal.uint :=
  match s with
  | EmptyString => if need_digit then None else Some Decimal.Nil
  | String c r =>
      if Ascii.eqb c "_"
      then if need_digit then None else digits true r
      else uint_of_char c (digits false r)
  end.

(** [int(s)] for a [str] of ASCII characters in base 10: surrounding
    whitespace is dropped, one optional sign, then [digits].  [None] stands
    for [ValueError].  (The interpreter's configurable cap on the number of
    digits is a setting of the process, not part of the conversion, and is
    left out.) *)
Definition int (s : string) : option Z :=
  match strip s with
  | String "+" r => option_map Z.of_uint (digits true r)
  | String "-" r => option_map (fun u => - Z.of_uint u) (digits true r)
  | t => option_map Z.of_uint (digits true t)
  end.

(** [sub in s]. *)
Fixpoint contains (sub s : string) : bool :=
  String.prefix sub s ||
  match s with
  | EmptyString => false
  | String _ r => contains sub r
  end.

End Py.

(* ===================================================================== *)
(** * argparse, as configured by model_evaulation.py                      *)
(* ===================================================================== *)

(** [parser.add_argument("training_set_sizes", type=int, nargs="+")] on a
    parser that has no option of its own besides the built-in [-h]/[--help].
    The model follows the parser's two passes: each argument string is
    classified (option-like or positional), then the strings are consumed
    from left to right (CPython 3.11's [_parse_optional] and
    [_parse_known_args]).  The only positional takes the first run of
    positional strings and converts each with [int]. *)
Module Argparse.

Inductive parse_result : Type :=
| Parsed (training_set_sizes : list Z)
| ParserExit (status : Z).

Inductive arg_kind : Type :=
| KPositional          (* 'A' in the parser's pattern string *)
| KDashDash            (* the first "--" *)
| KHelp                (* -h, --help or an abbreviation of --help *)
| KBadOption           (* a help flag with an explicit argument: error at once *)
| KUnknown.            (* option-like, no such option: reported at the end *)

Definition isdigit (c : ascii) : bool :=
  let n := N_of_ascii c in ((48 <=? n) && (n <=? 57))%N.

Fixpoint all_digits (s : string) : bool :=
  match s with
  | EmptyString => true
  | String c r => isdigit c && all_digits r
  end.

(** [s] is [digits* "." digits+]. *)
Fixpoint frac_number (s : string) : bool :=
  match s with
  | EmptyString => false
  | String c r =>
      if Ascii.eqb c "."
      then negb (r =? "")%string && all_digits r
      else isdigit c && frac_number r
  end.

Fixpoint drop_final_newline (s : string) : string :=
  match s with
  | EmptyString => EmptyString
  | String c r =>
      if Ascii.eqb c "010" && (r =? "")%string then EmptyString
      else String c (drop_final_newline r)
  end.

(** The parser's negative-number pattern [^-\d+$|^-\d*\.\d+$]; [$] also
    matches before a final newline. *)
Definition negative_number (s : string) : bool :=
  match drop_final_newline s with
  | String "-" r => (negb (r =? "")%string && all_digits r) || frac_number r
  | _ => false
  end.

Fixpoint has_char (a : ascii) (s : string) : bool :=
  match s with
  | EmptyString => false
  | String c r => Ascii.eqb c a || has_char a r
  end.

Fixpoint before_eq (s : string) : string :=
  match s with
  | EmptyString => EmptyString
  | String c r => if Ascii.eqb c "=" then EmptyString else String c (before_eq r)
  end.

(** Classification of one argument string that stands before any ["--"],
    in the order the parser makes its tests: the separator; the empty
    string and strings that do not start with a dash; the two option
    strings; the lone dash; abbreviations of [--help], possibly with an
    [=value]; a [-h] with characters attached; negative numbers (the parser
    has no option that looks like one); strings with a space. *)
Definition classify (s : string) : arg_kind :=
  if (s =? "--")%string then KDashDash
  else if (s =? "")%string then KPositional
  else if negb (String.prefix "-" s) then KPositional
  else if (s =? "-h")%string || (s =? "--help")%string then KHelp
  else if (s =? "-")%string then KPositional
  else if String.prefix "--" s && String.prefix (before_eq s) "--help"
       then if has_char "=" s then KBadOption else KHelp
  else if negb (String.prefix "--" s) && String.prefix "-h" s then KBadOption
  else if negative_number s then KPositional
  else if has_char " " s then KPositional
  else KUnknown.

(** Every string after the first ["--"] is positional. *)
Fixpoint kinds (after_dashes : bool) (args : list string) : list (arg_kind * string) :=
  match args with
  | [] => []
  | s :: rest =>
      if after_dashes then (KPositional, s) :: kinds true rest
      else match classify s with
           | KDashDash => (KDashDash, s) :: kinds true rest
           | k => (k, s) :: kinds false rest
           end
  end.

(** [type=int] applied to each value; the first failure is the parser's
    error. *)
Fixpoint convert (values : list string) : option (list Z) :=
  match values with
  | [] => Some []
  | v :: rest =>
      match Py.int v with
      | None => None
      | Some z => option_map (cons z) (convert rest)
      end
  end.

(** Where the positional [training_set_sizes] stands while the strings are
    consumed: it has seen nothing yet, it is inside its run of positional
    strings ([seen_value] tells whether the run holds more than the ["--"]
    marker), or it has taken its values. *)
Inductive positional : Type :=
| Pending
| Collecting (run : list string) (seen_value : bool)
| Taken (sizes : list Z).

(** The end of a run, at an option-like string or at the end of the command
    line: the collected strings are converted.  [None] is the parser's error
    (exit status 2); otherwise the positional's new state and whether strings
    were left over. *)
Definition settle (st : positional) (extras : bool) : option (positional * bool) :=
  match st with
  | Pending => Some (Pending, extras)
  | Collecting run true =>
      match convert run with
      | None => None
      | Some zs => Some (Taken zs, extras)
      end
  | Collecting _ false => Some (Pending, true)
  | Taken zs => Some (Taken zs, extras)
  end.

(** Left-to-right consumption.  A help flag exits with status 0 as soon as
    it is reached; unknown options and positional strings that arrive after
    the positional has taken its run are left over and make the parser fail
    at the end, as does a missing positional. *)
Fixpoint consume (l : list (arg_kind * string)) (st : positional) (extras : bool)
  : parse_result :=
  match l with
  | [] =>
      match settle st extras with
      | Some (Taken zs, false) => Parsed zs
      | _ => ParserExit 2
      end
  | (KPositional, s) :: rest =>
      match st with
      | Pending => consume rest (Collecting [s] true) extras
      | Collecting run _ => consume rest (Collecting (run ++ [s]) true) extras
      | Taken _ => consume rest st true
      end
  | (KDashDash, _) :: rest =>
      match st with
      | Pending => consume rest (Collecting [] false) extras
      | Collecting _ _ => consume rest st extras
      | Taken _ => consume rest st true
      end
  | (k, _) :: rest =>
      match settle st extras with
      | None => ParserExit 2
      | Some (st', extras') =>
          match k with
          | KHelp => ParserExit 0
          | KBadOption => ParserExit 2
          | _ => consume rest st' true
          end
      end
  end.

(** A command line is doomed when a string was left over, when the run
    being collected holds a string [int] rejects, or when such a string is
    still to come. *)
Definition doomed (l : list (arg_kind * string)) (st : positional) (extras : bool) : Prop :=
  extras = true
  \/ (exists run b, st = Collecting run b /\ convert run = None)
  \/ (exists k s, In (k, s) l /\ k <> KDashDash /\ Py.int s = None).

(** [parser.parse_args()] on [sys.argv[1:]]. *)
Definition parse_args (args : list string) : parse_result :=
  consume (kinds false args) Pending false.

End Argparse.

(* ===================================================================== *)
(** * scripts/model_evaulation.py                                         *)
(* ===================================================================== *)

Module ModelEvaluation.

(** The part of the interpreter's state the script touches: the global
    [sys.argv], what was printed, and the log of calls made to the external
    evaluation entry point (each entry is the [sys.argv] that call saw). *)
Record process : Type := mkProcess {
  sys_argv : list string;
  stdout : list string;
  evaluations : list (list string)
}.

(** Statements: they read and write the process and may raise. *)
Definition M (A : Type) : Type := process -> Py.result A * process.

Definition ret {A} (a : A) : M A := fun p => (Py.Ok a, p).

Definition bind {A B} (m : M A) (k : A -> M B) : M B :=
  fun p =>
    match m p with
    | (Py.Ok a, p') => k a p'
    | (Py.Raise e, p') => (Py.Raise e, p')
    end.

Notation "m ;; k" := (bind m (fun _ => k)) (at level 61, right associativity).

Definition set_sys_argv (argv : list string) : M unit :=
  fun p => (Py.Ok tt, mkProcess argv (stdout p) (evaluations p)).

Definition print (line : string) : M unit :=
  fun p => (Py.Ok tt, mkProcess (sys_argv p) (stdout p ++ [line]) (evaluations p)).

Definition sys_exit {A} (status : Z) : M A :=
  fun p => (Py.Raise (Py.SystemExit status), p).

Section Script.

(** [mace.cli.eval_configs.main], the external evaluation entry point.  It
    takes no argument and reads [sys.argv]; whether it returns or raises is
    its own business, so it is a variable: its outcome may depend on the
    number of calls made before and on the argument vector it finds. *)
Variable mace_eval_configs_main : nat -> list string -> Py.result unit.

Definition call_mace_eval_configs_main : M unit :=
  fun p =>
    (mace_eval_configs_main (List.length (evaluations p)) (sys_argv p),
     mkProcess (sys_argv p) (stdout p) (evaluations p ++ [sys_argv p])).

(** def eval_mace(configs, model, output):
        sys.argv = ["program", "--configs", configs, "--model", model, "--output", output]
        mace_eval_configs_main() *)
Definition eval_mace (configs model output : string) : M unit :=
  set_sys_argv ["program"; "--configs"; configs; "--model"; model; "--output"; output] ;;
  call_mace_eval_configs_main.

(** The three path arguments of the call in the loop body.  [configs] is an
    f-string without a field; the other two embed [{training_set_size}]. *)
Definition test_configs : string :=
  "/home/jh2536/rds/hpc-work/training_val_sets/validation_set_100_revPBE_D3.xyz".

Definition test_model (training_set_size : Z) : string :=
  "/home/jh2536/scratch_mace/models/MACE_model_scratch_newE0s_revPBE_D3_"
  ++ Py.str training_set_size ++ "_stagetwo.model".

Definition test_output (training_set_size : Z) : string :=
  "/home/jh2536/scratch_mace/evaluation/outputs_eval/scratch_newE0s_revPBE_D3_"
  ++ Py.str training_set_size ++ "_eval_test.xyz".

(** The argument vector the evaluation of one size runs with. *)
Definition eval_argv (training_set_size : Z) : list string :=
  ["program"; "--configs"; test_configs;
   "--model"; test_model training_set_size;
   "--output"; test_output training_set_size].

(** The body of [for training_set_size in args.training_set_sizes:]. *)
Definition loop_body (training_set_size : Z) : M unit :=
  print "Evaluating test set..." ;;
  eval_mace test_configs (test_model training_set_size) (test_output training_set_size).

Fixpoint for_each (training_set_sizes : list Z) : M unit :=
  match training_set_sizes with
  | [] => ret tt
  | size :: rest => loop_body size ;; for_each rest
  end.

(** The module body: parse [sys.argv[1:]], then loop. *)
Definition main : M unit :=
  fun p =>
    match Argparse.parse_args (List.tl (sys_argv p)) with
    | Argparse.ParserExit status => sys_exit status p
    | Argparse.Parsed training_set_sizes => for_each training_set_sizes p
    end.

(** The script started with the command line [argv] ([argv[0]] is the
    script's own name). *)
Definition run_script (argv : list string) : Py.result unit * process :=
  main (mkProcess argv [] []).

End Script.

End ModelEvaluation.

(* ===================================================================== *)
(** * numpy arithmetic                                                    *)
(* ===================================================================== *)

(** The element type of the arrays and its four operations.  numpy's
    operators never raise: a division by zero yields a value of the type.
    Two instances are used below: exact rationals, for the statements made
    "in exact arithmetic", and IEEE binary64, the arrays' actual dtype. *)
Class Arithmetic (F : Type) : Type := {
  zero : F;
  add : F -> F -> F;
  sub : F -> F -> F;
  mul : F -> F -> F;
  div : F -> F -> F
}.

(** In the exact instance a quotient by zero is Rocq's [x / 0 == 0]; every
    statement made with it assumes a non-zero divisor. *)
#[export] Instance exact : Arithmetic Q :=
  {| zero := 0%Q; add := Qplus; sub := Qminus; mul := Qmult; div := Qdiv |}.

#[export] Instance float64 : Arithmetic float :=
  {| zero := PrimFloat.zero; add := PrimFloat.add; sub := PrimFloat.sub;
     mul := PrimFloat.mul; div := PrimFloat.div |}.

Module Np.
Section Arrays.
Context {F : Type} `{Arithmetic F}.

(** A row of an (N, 3) array. *)
Definition vec : Type := (F * F * F)%type.

Definition vzero : vec := (zero, zero, zero).

Definition vadd (u v : vec) : vec :=
  let '(ux, uy, uz) := u in let '(vx, vy, vz) := v in
  (add ux vx, add uy vy, add uz vz).

Definition vsub (u v : vec) : vec :=
  let '(ux, uy, uz) := u in let '(vx, vy, vz) := v in
  (sub ux vx, sub uy vy, sub uz vz).

(** [v / c] and [v * c] with a scalar [c], element by element. *)
Definition vdiv (v : vec) (c : F) : vec :=
  let '(x, y, z) := v in (div x c, div y c, div z c).

Definition vscale (v : vec) (c : F) : vec :=
  let '(x, y, z) := v in (mul x c, mul y c, mul z c).

(** [a.sum()] of a one-dimensional array and [a.sum(axis=0)] of an (N, 3)
    array; the sum of an empty array is zero.  The additions are made in
    index order (numpy's blocked summation of long contiguous arrays only
    changes the rounding). *)
Definition sum (a : list F) : F := fold_left add a zero.

Definition sum_axis0 (a : list vec) : vec := fold_left vadd a vzero.

End Arrays.
End Np.

(* ===================================================================== *)
(** * scripts/caco3_MD.py                                                 *)
(* ===================================================================== *)

Module CaCO3MD.

(** ** The particle system *)

Section System.
Context {F : Type} `{Arithmetic F}.

(** One particle of an [ase.Atoms] object, with the two per-atom arrays the
    script reads or writes. *)
Record Atom : Type := mkAtom {
  mass : F;
  momentum : @Np.vec F
}.

Definition Atoms : Type := list Atom.

Definition get_momenta (atoms : Atoms) : list (@Np.vec F) := map momentum atoms.

Definition get_masses (atoms : Atoms) : list F := map mass atoms.

(** [atoms.set_momenta(p)] with an array [p] of the system's shape. *)
Fixpoint set_momenta (atoms : Atoms) (p : list (@Np.vec F)) : Atoms :=
  match atoms, p with
  | a :: atoms', v :: p' => mkAtom (mass a) v :: set_momenta atoms' p'
  | _, _ => []
  end.

(** [momenta - com_velocity * masses[:, np.newaxis]]: row [i] is
    [momenta[i] - com_velocity * masses[i]]. *)
Fixpoint subtract_drift (momenta : list (@Np.vec F)) (com_velocity : @Np.vec F)
    (masses : list F) : list (@Np.vec F) :=
  match momenta, masses with
  | p :: momenta', m :: masses' =>
      Np.vsub p (Np.vscale com_velocity m) :: subtract_drift momenta' com_velocity masses'
  | _, _ => []
  end.

Definition com_velocity_of (atoms : Atoms) : @Np.vec F :=
  let total_momentum := Np.sum_axis0 (get_momenta atoms) in
  let total_mass := Np.sum (get_masses atoms) in
  Np.vdiv total_momentum total_mass.

(** def remove_COM_velocity(atoms):
        momenta = atoms.get_momenta()
        total_momentum = momenta.sum(axis=0)
        total_mass = atoms.get_masses().sum()
        com_velocity = total_momentum / total_mass
        atoms.set_momenta(momenta - com_velocity * atoms.get_masses()[:, np.newaxis])

    The body has no [raise] and calls nothing that raises: array arithmetic
    returns a value whatever its operands. *)
Definition remove_COM_velocity (atoms : Atoms) : Py.result Atoms :=
  let momenta := get_momenta atoms in
  let total_momentum := Np.sum_axis0 momenta in
  let total_mass := Np.sum (get_masses atoms) in
  let com_velocity := Np.vdiv total_momentum total_mass in
  Py.Ok (set_momenta atoms (subtract_drift momenta com_velocity (get_masses atoms))).

(** [ase.md.velocitydistribution.MaxwellBoltzmannDistribution], external: it
    draws new momenta for the system at the given temperature, or raises. *)
Variable MaxwellBoltzmannDistribution : Atoms -> Z -> Py.result Atoms.

(** Lines 53-54 of the script, the velocity initializer:
        MaxwellBoltzmannDistribution(CaCO3, temperature_K=T_init)
        remove_COM_velocity(CaCO3) *)
Definition initialize_velocities (atoms : Atoms) (T_init : Z) : Py.result Atoms :=
  match MaxwellBoltzmannDistribution atoms T_init with
  | Py.Ok atoms' => remove_COM_velocity atoms'
  | Py.Raise e => Py.Raise e
  end.

End System.

Arguments Atom F : clear implicits.
Arguments Atoms F : clear implicits.

(** The error the specification names for a rejected configuration. *)
Definition InvalidConfiguration : Py.exn := Py.Exception "InvalidConfiguration".

(** Total momentum and total mass of a system. *)
Definition total_momentum {F} `{Arithmetic F} (atoms : Atoms F) : @Np.vec F :=
  Np.sum_axis0 (get_momenta atoms).

Definition total_mass {F} `{Arithmetic F} (atoms : Atoms F) : F :=
  Np.sum (get_masses atoms).

(** Equality of two rows, component by component. *)
Definition veq (u v : @Np.vec Q) : Prop :=
  (fst (fst u) == fst (fst v) /\ snd (fst u) == snd (fst v) /\ snd u == snd v)%Q.

(** The sum of a list of rationals, written as a right fold. *)
Definition qsum (l : list Q) : Q := fold_right Qplus 0%Q l.

(** ** The dynamics driver *)

(** Modelled from the spec: the Dynamics Driver, that is [dyn.attach] and
    [dyn.run] of the [Bussi] object.  The class belongs to the external
    [ase.md] package and is not among the repository's files; what follows
    is section 4.4 of the specification, together with its definition of a
    periodic callback (an action and an interval, invoked when
    [step mod interval == 0]):  for each step s = 1..N the driver lets the
    integrator advance the system by one timestep, then invokes, in
    attachment order, every attached callback whose interval divides s;  an
    error raised by the integrator or by a callback ends the run in [Failed]
    with no further step;  after step N the run is [Completed]. *)
Module Driver.

(** Modelled from the spec: the four states of the driver's state machine;
    [Completed] and [Failed] are terminal. *)
Inductive state : Type := Initialized | Running | Completed | Failed.

Section Driver.
Variables (W callback : Type).

(** The injected integrator: step number [s] applied to the world. *)
Variable integrate : N -> W -> Py.result W.
(** What invoking a callback does. *)
Variable invoke : callback -> W -> Py.result W.

Record driver : Type := mkDriver {
  status : state;
  nsteps : N;                            (* the step counter *)
  observers : list (callback * N);       (* attachment list: action, interval *)
  invocations : list (callback * N);     (* log: which action ran at which step *)
  failure : option (Py.exn * N)          (* the surfaced error and its step *)
}.

(** Modelled from the spec: a driver is constructed [Initialized], at step
    0, with an empty attachment list. *)
Definition new_driver : driver := mkDriver Initialized 0 [] [] None.

(** Modelled from the spec: [dyn.attach(action, interval=n)] pairs the
    action with its interval and puts the pair at the end of the attachment
    list, so that callbacks run in attachment order. *)
Definition attach (dyn : driver) (action : callback) (interval : N) : driver :=
  mkDriver (status dyn) (nsteps dyn) (observers dyn ++ [(action, interval)])
           (invocations dyn) (failure dyn).

(** Modelled from the spec: a periodic callback is invoked when
    [step mod interval == 0]; the intervals are positive integers. *)
Definition due (s interval : N) : bool :=
  ((0 <? interval) && (s mod interval =? 0))%N.

(** Modelled from the spec: at step [s] every attached callback whose
    interval divides [s] is invoked, in attachment order; a callback that
    raises stops the pass.  Returns the error that stopped the pass, if any,
    the world, and the invocations made. *)
Fixpoint call_observers (s : N) (obs : list (callback * N)) (w : W)
  : option Py.exn * W * list (callback * N) :=
  match obs with
  | [] => (None, w, [])
  | (action, interval) :: rest =>
      if due s interval
      then match invoke action w with
           | Py.Ok w' =>
               let '(e, w'', log) := call_observers s rest w' in
               (e, w'', (action, s) :: log)
           | Py.Raise e => (Some e, w, [(action, s)])
           end
      else call_observers s rest w
  end.

(** Modelled from the spec: [k] more steps of a running driver.  Each step
    first lets the integrator advance the system, then passes over the
    callbacks; an error from either ends the run in [Failed] at that step,
    nothing is rolled back and no later step is made; when no step is left
    the run is [Completed]. *)
Fixpoint steps (k : nat) (dyn : driver) (w : W) : driver * W :=
  match k with
  | O => (mkDriver Completed (nsteps dyn) (observers dyn) (invocations dyn) None, w)
  | S k' =>
      let s := (nsteps dyn + 1)%N in
      match integrate s w with
      | Py.Raise e =>
          (mkDriver Failed (nsteps dyn) (observers dyn) (invocations dyn) (Some (e, s)), w)
      | Py.Ok w1 =>
          let '(e, w2, log) := call_observers s (observers dyn) w1 in
          match e with
          | Some e =>
              (mkDriver Failed s (observers dyn) (invocations dyn ++ log) (Some (e, s)), w2)
          | None =>
              steps k' (mkDriver Running s (observers dyn) (invocations dyn ++ log) None) w2
          end
      end
  end.

(** Modelled from the spec: [dyn.run(n_steps)] takes an [Initialized]
    driver to [Running] and makes [n_steps] steps; a driver in a terminal
    state is not run again. *)
Definition run (dyn : driver) (n_steps : N) (w : W) : driver * W :=
  match status dyn with
  | Initialized =>
      steps (N.to_nat n_steps)
            (mkDriver Running (nsteps dyn) (observers dyn) (invocations dyn) None) w
  | _ => (dyn, w)
  end.

End Driver.

Arguments mkDriver {callback}.
Arguments status {callback}.
Arguments nsteps {callback}.
Arguments observers {callback}.
Arguments invocations {callback}.
Arguments failure {callback}.
Arguments new_driver {callback}.
Arguments attach {callback}.
Arguments call_observers {W callback}.
Arguments steps {W callback}.
Arguments run {W callback}.

(** How many times [action] appears in an invocation log. *)
Definition count {callback : Type} (same : callback -> callback -> bool)
    (action : callback) (log : list (callback * N)) : nat :=
  List.length (filter (fun entry => same action (fst entry)) log).

(** The steps [n0 + 1 .. n0 + k]. *)
Definition step_range (n0 : N) (k : nat) : list N :=
  map (fun i => (n0 + N.of_nat i)%N) (seq 1 k).

(** The invocations a pass over [obs] makes at step [s] when no callback
    raises. *)
Definition schedule {callback : Type} (obs : list (callback * N)) (s : N)
  : list (callback * N) :=
  map (fun o => (fst o, s)) (filter (fun o => due s (snd o)) obs).

(** The sum, over an invocation log, of a weight given to each action. *)
Definition total_weight {callback : Type} (weight : callback -> nat)
    (log : list (callback * N)) : nat :=
  fold_right (fun entry acc => (weight (fst entry) + acc)%nat) 0%nat log.

End Driver.

(** ** The script *)

Section Script.
Context {F : Type} `{Arithmetic F}.

(** External collaborators of the run. *)
Variable kB : Q.                                           (* ase.units.kB *)
Variable get_potential_energy : Atoms F -> Py.result Q.    (* the calculator *)
Variable get_kinetic_energy : Atoms F -> Q.
Variable time_time : nat -> Q.            (* the n-th reading of [time.time()] *)
Variable MaxwellBoltzmannDistribution : Atoms F -> Z -> Py.result (Atoms F).
Variable bussi_step : N -> Atoms F -> Py.result (Atoms F).  (* one thermostatted step *)
Variable writable : string -> bool.                        (* can the path be created *)
Variable storage_left : nat -> bool.        (* room for one more frame after n frames *)

(** One printed diagnostics line: the tuple the format string is applied
    to. *)
Record diagnostics : Type := mkDiagnostics {
  Epot : Q;                 (* %.3f *)
  Ekin : Q;                 (* %.3f *)
  temperature : Q;          (* %3.0f *)
  Etot : Q;                 (* %.3f *)
  elapsed_minutes : Z;      (* %d *)
  elapsed_seconds : Z       (* %.1f of an int *)
}.

Definition printenergy_format : string :=
  "Energy per atom: Epot = %.3feV  Ekin = %.3feV (T=%3.0fK)  Etot = %.3feV Time Elapsed: %dm %.1fs".

Record world : Type := mkWorld {
  CaCO3 : Atoms F;                 (* the one system object, mutated in place *)
  start_time : Q;
  clock_reads : nat;
  console : list diagnostics;
  open_files : list string;        (* paths held open by the process *)
  frames : list (Atoms F)          (* records appended to the trajectory *)
}.

(** Python's [x / n] with an [int] divisor: [ZeroDivisionError] on zero. *)
Definition truediv (x : Q) (n : nat) : Py.result Q :=
  match n with
  | O => Py.Raise (Py.Exception "ZeroDivisionError")
  | _ => Py.Ok (x / inject_Z (Z.of_nat n))%Q
  end.

(** [int(x)]: truncation toward zero. *)
Definition int_of (x : Q) : Z := Z.quot (Qnum x) (Z.pos (Qden x)).

(** [divmod(x, 60)]. *)
Definition divmod60 (x : Q) : Q * Q :=
  let q := inject_Z (Qfloor (x / 60)) in (q, x - 60 * q)%Q.

(** def printenergy(a=CaCO3):
        epot = a.get_potential_energy() / len(a)
        ekin = a.get_kinetic_energy() / len(a)
        elapsed_time = time.time() - start_time
        elapsed_min, elapsed_sec = divmod(elapsed_time, 60)
        print(fmt % (epot, ekin, ekin / (1.5 * units.kB), epot + ekin,
                     int(elapsed_min), int(elapsed_sec)))

    The default argument is the script's one system object. *)
Definition printenergy (w : world) : Py.result world :=
  let a := CaCO3 w in
  match get_potential_energy a with
  | Py.Raise e => Py.Raise e
  | Py.Ok potential =>
      match truediv potential (List.length a) with
      | Py.Raise e => Py.Raise e
      | Py.Ok epot =>
          match truediv (get_kinetic_energy a) (List.length a) with
          | Py.Raise e => Py.Raise e
          | Py.Ok ekin =>
              let elapsed_time := (time_time (clock_reads w) - start_time w)%Q in
              let '(elapsed_min, elapsed_sec) := divmod60 elapsed_time in
              let line :=
                mkDiagnostics epot ekin (ekin / ((3 # 2) * kB))%Q (epot + ekin)%Q
                              (int_of elapsed_min) (int_of elapsed_sec) in
              Py.Ok (mkWorld a (start_time w) (S (clock_reads w))
                             (console w ++ [line]) (open_files w) (frames w))
          end
      end
  end.

Definition traj_path : string :=
  "/home/raid/jh2536/WA_FT_mace/MD/CaCO3_modified_FT_100_600K_250000.traj".

(** [Trajectory(path, 'w', CaCO3)]: the file is opened for writing. *)
Definition Trajectory (path : string) (w : world) : Py.result world :=
  if writable path
  then Py.Ok (mkWorld (CaCO3 w) (start_time w) (clock_reads w) (console w)
                      (path :: open_files w) (frames w))
  else Py.Raise (Py.Exception "OSError").

(** [traj.write()]: the current system is appended as the next record. *)
Definition traj_write (w : world) : Py.result world :=
  if storage_left (List.length (frames w))
  then Py.Ok (mkWorld (CaCO3 w) (start_time w) (clock_reads w) (console w)
                      (open_files w) (frames w ++ [CaCO3 w]))
  else Py.Raise (Py.Exception "OSError").

(** The two functions the script attaches. *)
Inductive callback : Type := Printenergy | TrajWrite.

Definition same_callback (a b : callback) : bool :=
  match a, b with
  | Printenergy, Printenergy | TrajWrite, TrajWrite => true
  | _, _ => false
  end.

(** The weight that counts the invocations of one action. *)
Definition indicator (action other : callback) : nat :=
  if same_callback action other then 1%nat else 0%nat.

Definition invoke (action : callback) (w : world) : Py.result world :=
  match action with
  | Printenergy => printenergy w
  | TrajWrite => traj_write w
  end.

(** The integrator acts on the system object. *)
Definition integrate (s : N) (w : world) : Py.result world :=
  match bussi_step s (CaCO3 w) with
  | Py.Ok a' => Py.Ok (mkWorld a' (start_time w) (clock_reads w) (console w)
                               (open_files w) (frames w))
  | Py.Raise e => Py.Raise e
  end.

(** The numbers the script fixes. *)
Record run_config : Type := mkConfig {
  T_init : Z;
  n_steps : N;
  diagnostics_interval : N;
  trajectory_interval : N
}.

Definition caco3_config : run_config := mkConfig 600 250000 1000 10.

(** The observers as the script attaches them: [printenergy] first, then
    [traj.write]. *)
Definition attached (cfg : run_config) : Driver.driver callback :=
  Driver.attach
    (Driver.attach Driver.new_driver Printenergy (diagnostics_interval cfg))
    TrajWrite (trajectory_interval cfg).

(** Lines 31-65, from [start_time = time.time()] to [dyn.run(n_steps)], on
    the system read from the structure file.  The result is the exception
    that ended the script, if any, with the driver's final state when the
    run was started. *)
Definition script (cfg : run_config) (atoms0 : Atoms F)
  : Py.result (Driver.driver callback) * world :=
  let w0 := mkWorld atoms0 (time_time 0) 1 [] [] [] in
  match initialize_velocities MaxwellBoltzmannDistribution atoms0 (T_init cfg) with
  | Py.Raise e => (Py.Raise e, w0)
  | Py.Ok atoms1 =>
      let w1 := mkWorld atoms1 (start_time w0) (clock_reads w0) [] [] [] in
      match Trajectory traj_path w1 with
      | Py.Raise e => (Py.Raise e, w1)
      | Py.Ok w2 =>
          match printenergy w2 with
          | Py.Raise e => (Py.Raise e, w2)
          | Py.Ok w3 =>
              let '(dyn, w4) :=
                Driver.run integrate invoke (attached cfg) (n_steps cfg) w3 in
              match Driver.failure dyn with
              | Some (e, _) => (Py.Raise e, w4)
              | None => (Py.Ok dyn, w4)
              end
          end
      end
  end.

End Script.

End CaCO3MD.

(** ** Sample runs *)

(** Concrete collaborators on which the script is evaluated below: a system
    of two particles in exact arithmetic, a calculator with fixed energies,
    a clock that advances 75 s between two readings, a Maxwell-Boltzmann
    draw and an integrator that leave the momenta as they are, a writable
    path and room on the disk; and an integrator that raises at step 3. *)
Module Sample.
Import CaCO3MD.

Definition atoms : Atoms Q :=
  [mkAtom 2%Q (1, 2, 3)%Q; mkAtom 3%Q (4, -1 # 2, 0)%Q].

Definition kB : Q := (8617 # 100000000)%Q.

Definition get_potential_energy (a : Atoms Q) : Py.result Q := Py.Ok (-(10))%Q.

Definition get_kinetic_energy (a : Atoms Q) : Q := (1 # 10)%Q.

Definition time_time (n : nat) : Q := (75 * inject_Z (Z.of_nat n))%Q.

Definition MaxwellBoltzmannDistribution (a : Atoms Q) (T : Z) : Py.result (Atoms Q) :=
  Py.Ok a.

Definition bussi_step (s : N) (a : Atoms Q) : Py.result (Atoms Q) := Py.Ok a.

Definition bussi_step_raising (s : N) (a : Atoms Q) : Py.result (Atoms Q) :=
  if (s =? 3)%N then Py.Raise (Py.Exception "RuntimeError") else Py.Ok a.

Definition writable (path : string) : bool := true.

Definition storage_left (n : nat) : bool := true.

(** Twelve steps, diagnostics every four, a trajectory record every
    three. *)
Definition config : run_config := mkConfig 600 12 4 3.

Abbreviation script cfg :=
  (CaCO3MD.script kB get_potential_energy get_kinetic_energy time_time
                  MaxwellBoltzmannDistribution bussi_step writable storage_left
                  cfg atoms).

Abbreviation script_raising cfg :=
  (CaCO3MD.script kB get_potential_energy get_kinetic_energy time_time
                  MaxwellBoltzmannDistribution bussi_step_raising writable storage_left
                  cfg atoms).

(** A system of one massless particle, and of no particle, in binary64. *)
Definition massless : Atoms float := [mkAtom 0%float (1, 2, 3)%float].

Definition nobody : Atoms float := [].

End Sample.

(** ** Notions used to state further properties *)

Module Stated.
Import CaCO3MD.

(** The system with a uniform velocity [u] added to every particle: the
    momentum of a particle of mass m gains [u * m]. *)
Definition boost {F : Type} `{Arithmetic F} (u : @Np.vec F) (atoms : Atoms F) : Atoms F :=
  map (fun a => mkAtom (mass a) (Np.vadd (momentum a) (Np.vscale u (mass a)))) atoms.

(** Two systems in exact arithmetic with, particle by particle, the same
    mass and equal momenta. *)
Definition same_motion (a b : Atoms Q) : Prop :=
  Forall2 (fun x y => mass y = mass x /\ veq (momentum y) (momentum x)) a b.

(** The system [remove_COM_velocity] returns, in exact arithmetic. *)
Definition removed (atoms : Atoms Q) : Atoms Q :=
  set_momenta atoms
    (subtract_drift (get_momenta atoms) (com_velocity_of atoms) (get_masses atoms)).

(** [m_b * p_a - m_a * p_b], the momentum of particle a relative to
    particle b (it is m_a * m_b times the difference of their velocities). *)
Definition relative_momentum (a b : Atom Q) : @Np.vec Q :=
  Np.vsub (Np.vscale (momentum a) (mass b)) (Np.vscale (momentum b) (mass a)).

(** [l.remove(x)]: the list without the first occurrence of [x]. *)
Fixpoint remove_first (x : string) (l : list string) : list string :=
  match l with
  | [] => []
  | y :: rest => if (y =? x)%string then rest else y :: remove_first x rest
  end.

(** The strings a classified command line hands to the positional: all of
    them but the separator. *)
Definition values (l : list (Argparse.arg_kind * string)) : list string :=
  map snd (filter (fun entry => match fst entry with
                                | Argparse.KDashDash => false
                                | _ => true
                                end) l).

(** The line the loop of model_evaulation.py prints before each
    evaluation. *)
Definition progress_line : string := "Evaluating test set...".

End Stated.

(* ===================================================================== *)
(** * Proofs: [str], [int] and the argument parser                        *)
(* ===================================================================== *)

Module PyFacts.

(** The characters [str] produces for the digits of a number. *)
Lemma all_digits_string_of_uint (d : Decimal.uint) :
  Argparse.all_digits (NilEmpty.string_of_uint d) = true.
Proof. induction d; simpl; auto. Qed.

Lemma digits_string_of_uint (d : Decimal.uint) :
  Py.digits false (NilEmpty.string_of_uint d) = Some d.
Proof. induction d; simpl; rewrite ?IHd; reflexivity. Qed.

Lemma digits_start_string_of_uint (d : Decimal.uint) :
  d <> Decimal.Nil -> Py.digits true (NilEmpty.string_of_uint d) = Some d.
Proof.
  destruct d; intros Hd; try congruence; simpl;
    rewrite digits_string_of_uint; reflexivity.
Qed.

(** A string of digits has nothing to strip. *)
Lemma rstrip_digits (s : string) :
  Argparse.all_digits s = true -> Py.rstrip s = s.
Proof.
  induction s as [|c r IH]; simpl; intros Hs; [reflexivity|].
  apply andb_prop in Hs as [Hc Hr].
  rewrite (IH Hr).
  assert (Hsp : Py.isspace c = false).
  { destruct c as [[|] [|] [|] [|] [|] [|] [|] [|]]; try discriminate Hc; reflexivity. }
  rewrite Hsp. reflexivity.
Qed.

Lemma lstrip_digits (s : string) :
  Argparse.all_digits s = true -> Py.lstrip s = s.
Proof.
  destruct s as [|c r]; simpl; intros Hs; [reflexivity|].
  apply andb_prop in Hs as [Hc _].
  assert (Hsp : Py.isspace c = false).
  { destruct c as [[|] [|] [|] [|] [|] [|] [|] [|]]; try discriminate Hc; reflexivity. }
  rewrite Hsp. reflexivity.
Qed.

Lemma strip_digits (s : string) :
  Argparse.all_digits s = true -> Py.strip s = s.
Proof.
  intros Hs. unfold Py.strip. rewrite (lstrip_digits s Hs). apply rstrip_digits, Hs.
Qed.

Lemma strip_minus_digits (s : string) :
  Argparse.all_digits s = true -> Py.strip (String "-" s) = String "-" s.
Proof.
  intros Hs. unfold Py.strip. simpl. rewrite (rstrip_digits s Hs). reflexivity.
Qed.

(** [int] of a non-empty run of digits, with or without a minus sign. *)
Lemma int_of_digits (d : Decimal.uint) :
  d <> Decimal.Nil -> Py.int (NilEmpty.string_of_uint d) = Some (Z.of_uint d).
Proof.
  intros Hd. unfold Py.int.
  rewrite (strip_digits _ (all_digits_string_of_uint d)).
  pose proof (digits_start_string_of_uint d Hd) as E.
  destruct d; try congruence; simpl in *; rewrite E; reflexivity.
Qed.

Lemma int_of_minus_digits (d : Decimal.uint) :
  d <> Decimal.Nil ->
  Py.int (String "-" (NilEmpty.string_of_uint d)) = Some (- Z.of_uint d).
Proof.
  intros Hd. unfold Py.int.
  rewrite (strip_minus_digits _ (all_digits_string_of_uint d)).
  rewrite (digits_start_string_of_uint d Hd). reflexivity.
Qed.

(** The decimal rendering of an integer, case by case. *)
Lemma str_cases (z : Z) :
  exists d, d <> Decimal.Nil /\
    ((Py.str z = NilEmpty.string_of_uint d /\ z = Z.of_uint d) \/
     (Py.str z = String "-" (NilEmpty.string_of_uint d) /\ z = - Z.of_uint d /\ z < 0)).
Proof.
  pose proof (DecimalZ.of_to z) as Hz. unfold Py.str.
  destruct z as [|p|p]; simpl in *.
  - exists (Decimal.D0 Decimal.Nil). split; [discriminate|]. left. split; reflexivity.
  - exists (Pos.to_uint p). split; [apply DecimalPos.Unsigned.to_uint_nonnil|].
    left. split; [|symmetry; exact Hz].
    unfold NilZero.string_of_uint.
    destruct (Pos.to_uint p) eqn:E; try reflexivity.
    exfalso; revert E; apply DecimalPos.Unsigned.to_uint_nonnil.
  - exists (Pos.to_uint p). split; [apply DecimalPos.Unsigned.to_uint_nonnil|].
    right. split; [|split; [symmetry; exact Hz | lia]].
    unfold NilZero.string_of_uint.
    destruct (Pos.to_uint p) eqn:E; try reflexivity.
    exfalso; revert E; apply DecimalPos.Unsigned.to_uint_nonnil.
Qed.

(** [int(str(z)) == z]. *)
Lemma int_str (z : Z) : Py.int (Py.str z) = Some z.
Proof.
  destruct (str_cases z) as (d & Hd & [[E Hz] | [E [Hz _]]]); rewrite E, Hz.
  - apply int_of_digits, Hd.
  - apply int_of_minus_digits, Hd.
Qed.

Lemma str_inj (a b : Z) : Py.str a = Py.str b -> a = b.
Proof.
  intros E. pose proof (int_str a) as Ha. rewrite E, int_str in Ha. congruence.
Qed.

End PyFacts.

Module ArgparseFacts.
Import Argparse.

Lemma drop_final_newline_digits (s : string) :
  all_digits s = true -> drop_final_newline s = s.
Proof.
  induction s as [|c r IH]; simpl; intros Hs; [reflexivity|].
  apply andb_prop in Hs as [Hc Hr]. rewrite (IH Hr).
  destruct c as [[|] [|] [|] [|] [|] [|] [|] [|]]; try discriminate Hc; reflexivity.
Qed.

(** What [str] renders is never taken for an option: a number without sign
    does not start with a dash, and a negative number matches the parser's
    negative-number pattern. *)
Lemma classify_str (z : Z) : classify (Py.str z) = KPositional.
Proof.
  destruct (PyFacts.str_cases z) as (d & Hd & [[E _] | [E _]]); rewrite E.
  - destruct d; try congruence; reflexivity.
  - pose proof (PyFacts.all_digits_string_of_uint d) as Hall.
    assert (Hneg : negative_number (String "-" (NilEmpty.string_of_uint d)) = true).
    { unfold negative_number.
      change (drop_final_newline (String "-" (NilEmpty.string_of_uint d)))
        with (String "-" (drop_final_newline (NilEmpty.string_of_uint d))).
      rewrite (drop_final_newline_digits _ Hall), Hall.
      destruct d; try congruence; reflexivity. }
    destruct d; try congruence; simpl NilEmpty.string_of_uint in *;
      unfold classify; rewrite Hneg; reflexivity.
Qed.

Lemma kinds_str (zs : list Z) :
  kinds false (map Py.str zs) = map (fun z => (KPositional, Py.str z)) zs.
Proof.
  induction zs as [|z zs IH]; simpl; [reflexivity|].
  rewrite classify_str, IH. reflexivity.
Qed.

Lemma convert_app (u v : list string) (xs ys : list Z) :
  convert u = Some xs -> convert v = Some ys -> convert (u ++ v)%list = Some (xs ++ ys)%list.
Proof.
  revert xs. induction u as [|a u IH]; simpl; intros xs Hu Hv.
  - injection Hu as <-. exact Hv.
  - destruct (Py.int a) as [x|]; [|discriminate].
    destruct (convert u) as [xs'|]; [|discriminate].
    injection Hu as <-. rewrite (IH xs' eq_refl Hv). reflexivity.
Qed.

Lemma convert_str (zs : list Z) : convert (map Py.str zs) = Some zs.
Proof.
  induction zs as [|z zs IH]; simpl; [reflexivity|].
  rewrite PyFacts.int_str, IH. reflexivity.
Qed.

(** Once inside its run, the positional takes every rendered number that
    follows. *)
Lemma consume_collecting (zs : list Z) (run : list string) (xs : list Z) :
  convert run = Some xs ->
  consume (map (fun z => (KPositional, Py.str z)) zs) (Collecting run true) false
  = Parsed (xs ++ zs)%list.
Proof.
  revert run xs. induction zs as [|z zs IH]; intros run xs Hrun.
  - simpl. rewrite Hrun, app_nil_r. reflexivity.
  - cbn [map consume].
    rewrite (IH (run ++ [Py.str z])%list (xs ++ [z])%list).
    + rewrite <- app_assoc. reflexivity.
    + apply convert_app; [exact Hrun|]. simpl. rewrite PyFacts.int_str. reflexivity.
Qed.

Lemma parse_args_str (zs : list Z) :
  zs <> [] -> parse_args (map Py.str zs) = Parsed zs.
Proof.
  intros Hzs. unfold parse_args. rewrite kinds_str.
  destruct zs as [|z zs]; [congruence|].
  cbn [map consume].
  apply (consume_collecting zs [Py.str z] [z]).
  simpl. rewrite PyFacts.int_str. reflexivity.
Qed.


Lemma convert_app_none_l (u v : list string) :
  convert u = None -> convert (u ++ v)%list = None.
Proof.
  induction u as [|a u IH]; simpl; intros Hu; [discriminate|].
  destruct (Py.int a); [|reflexivity].
  destruct (convert u); [discriminate|]. rewrite IH; reflexivity.
Qed.

Lemma convert_snoc_none (u : list string) (s : string) :
  Py.int s = None -> convert (u ++ [s])%list = None.
Proof.
  intros Hs. induction u as [|a u IH]; simpl.
  - rewrite Hs. reflexivity.
  - destruct (Py.int a); [|reflexivity]. rewrite IH. reflexivity.
Qed.

Lemma settle_extras (st st' : positional) (extras' : bool) :
  settle st true = Some (st', extras') -> extras' = true.
Proof.
  destruct st as [|run [|]|zs]; simpl; try congruence.
  destruct (convert run); congruence.
Qed.

Lemma doomed_never_parsed (l : list (arg_kind * string)) :
  forall st extras zs, doomed l st extras -> consume l st extras <> Parsed zs.
Proof.
  induction l as [|[k s] rest IH]; intros st extras zs Hd.
  - simpl. destruct Hd as [-> | [(run & b & -> & Hrun) | (k & s & [] & _)]].
    + destruct (settle st true) as [[st' e']|] eqn:E; [|discriminate].
      rewrite (settle_extras _ _ _ E). destruct st'; discriminate.
    + destruct b; simpl; [rewrite Hrun|]; discriminate.
  - assert (Hrest : forall st' extras',
               extras' = true
               \/ (exists run b, st' = Collecting run b /\ convert run = None)
               \/ (exists k' s', In (k', s') rest /\ k' <> KDashDash /\ Py.int s' = None) ->
               consume rest st' extras' <> Parsed zs).
    { intros st' extras' H'. apply IH. exact H'. }
    destruct k; cbn [consume].
    + (* a positional string *)
      destruct st as [|run b|sizes].
      * apply Hrest. destruct Hd as [-> | [(run & b & Hst & _) | (k & s' & [Hin|Hin] & Hk & Hs)]];
          [left; reflexivity | discriminate Hst | | ].
        -- injection Hin as <- <-. right; left. exists [s], true. split; [reflexivity|].
           simpl. rewrite Hs. reflexivity.
        -- right; right. exists k, s'. auto.
      * apply Hrest. destruct Hd as [-> | [(run' & b' & Hst & Hrun) | (k & s' & [Hin|Hin] & Hk & Hs)]];
          [left; reflexivity | | | ].
        -- injection Hst as <- <-. right; left. exists (run ++ [s])%list, true.
           split; [reflexivity | apply convert_app_none_l, Hrun].
        -- injection Hin as <- <-. right; left. exists (run ++ [s])%list, true.
           split; [reflexivity | apply convert_snoc_none, Hs].
        -- right; right. exists k, s'. auto.
      * apply Hrest. left; reflexivity.
    + (* the separator *)
      destruct st as [|run b|sizes].
      * apply Hrest. destruct Hd as [-> | [(run & b & Hst & _) | (k & s' & [Hin|Hin] & Hk & Hs)]];
          [left; reflexivity | discriminate Hst | | ].
        -- injection Hin as <- <-. congruence.
        -- right; right. exists k, s'. auto.
      * apply Hrest. destruct Hd as [-> | [(run' & b' & Hst & Hrun) | (k & s' & [Hin|Hin] & Hk & Hs)]];
          [left; reflexivity | | | ].
        -- right; left. exists run', b'. auto.
        -- injection Hin as <- <-. congruence.
        -- right; right. exists k, s'. auto.
      * apply Hrest. left; reflexivity.
    + destruct (settle st extras) as [[st' e']|]; discriminate.
    + destruct (settle st extras) as [[st' e']|]; discriminate.
    + destruct (settle st extras) as [[st' e']|]; [|discriminate].
      apply Hrest. left; reflexivity.
Qed.

Lemma classify_dashdash (s : string) : classify s = KDashDash -> s = "--".
Proof.
  unfold classify.
  destruct (String.eqb_spec s "--") as [E|_]; [intros _; exact E|].
  repeat match goal with
         | |- context [if ?b then _ else _] => destruct b
         end; discriminate.
Qed.

Lemma kinds_In (args : list string) (s : string) :
  forall after, In s args -> s <> "--" ->
  exists k, In (k, s) (kinds after args) /\ k <> KDashDash.
Proof.
  induction args as [|a args IH]; intros after Hin Hs; [contradiction|].
  destruct Hin as [-> | Hin].
  - simpl. destruct after.
    + exists KPositional. split; [left; reflexivity | discriminate].
    + destruct (classify s) eqn:E.
      1,3,4,5: eexists; split; [left; reflexivity | discriminate].
      apply classify_dashdash in E. contradiction.
  - simpl. destruct after.
    + destruct (IH true Hin Hs) as (k & Hk & Hne). exists k. split; [right; exact Hk | exact Hne].
    + destruct (classify a).
      2: destruct (IH true Hin Hs) as (k & Hk & Hne); exists k; split; [right; exact Hk | exact Hne].
      all: destruct (IH false Hin Hs) as (k & Hk & Hne); exists k; split; [right; exact Hk | exact Hne].
Qed.

(** A string that [int] rejects (the separator apart) makes the parser
    exit. *)
Lemma parse_args_rejects (args : list string) (s : string) (zs : list Z) :
  In s args -> s <> "--" -> Py.int s = None -> parse_args args <> Parsed zs.
Proof.
  intros Hin Hs Hint. unfold parse_args.
  apply doomed_never_parsed. right; right.
  destruct (kinds_In args s false Hin Hs) as (k & Hk & Hne).
  exists k, s. auto.
Qed.




End ArgparseFacts.

(* ===================================================================== *)
(** * Proofs: scripts/model_evaulation.py                                 *)
(* ===================================================================== *)

Module ModelEvaluationFacts.
Import ModelEvaluation.

Lemma append_inj_l (a b c : string) : (a ++ b = a ++ c)%string -> b = c.
Proof. induction a as [|x a IH]; simpl; intros E; [exact E | injection E as E; auto]. Qed.

Lemma length_append (a b : string) :
  String.length (a ++ b) = (String.length a + String.length b)%nat.
Proof. induction a as [|x a IH]; simpl; [reflexivity | rewrite IH; reflexivity]. Qed.

Lemma append_inj_r (a b c : string) : (a ++ c = b ++ c)%string -> a = b.
Proof.
  revert b. induction a as [|x a IH]; intros [|y b] E; simpl in E.
  - reflexivity.
  - apply (f_equal String.length) in E. simpl in E. rewrite length_append in E. lia.
  - apply (f_equal String.length) in E. simpl in E. rewrite length_append in E. lia.
  - injection E as -> E. f_equal. apply IH, E.
Qed.

(** The model path and the output path determine the size. *)
Lemma test_model_inj (a b : Z) : test_model a = test_model b -> a = b.
Proof.
  unfold test_model. intros E.
  apply append_inj_l, append_inj_r in E. apply PyFacts.str_inj, E.
Qed.

Lemma test_output_inj (a b : Z) : test_output a = test_output b -> a = b.
Proof.
  unfold test_output. intros E.
  apply append_inj_l, append_inj_r in E. apply PyFacts.str_inj, E.
Qed.

Lemma last_nonempty {A} (a : A) (l : list A) (d d' : A) :
  last (a :: l) d = last (a :: l) d'.
Proof.
  revert a. induction l as [|b l IH]; intros a; [reflexivity|].
  change (last (b :: l) d = last (b :: l) d'). apply IH.
Qed.

Section Script.
Variable mace_eval_configs_main : nat -> list string -> Py.result unit.

#[local] Abbreviation eval_mace := (ModelEvaluation.eval_mace mace_eval_configs_main).
#[local] Abbreviation loop_body := (ModelEvaluation.loop_body mace_eval_configs_main).
#[local] Abbreviation for_each := (ModelEvaluation.for_each mace_eval_configs_main).
#[local] Abbreviation run_script := (ModelEvaluation.run_script mace_eval_configs_main).

(** What one call of [eval_mace] does to the process, whatever the entry
    point answers. *)
Lemma eval_mace_run (configs model output : string) (p : process) :
  eval_mace configs model output p =
  (mace_eval_configs_main (List.length (evaluations p))
     ["program"; "--configs"; configs; "--model"; model; "--output"; output],
   mkProcess ["program"; "--configs"; configs; "--model"; model; "--output"; output]
             (stdout p)
             (evaluations p ++ [["program"; "--configs"; configs; "--model"; model;
                                 "--output"; output]])).
Proof. reflexivity. Qed.

Lemma loop_body_run (size : Z) (p : process) :
  loop_body size p =
  (mace_eval_configs_main (List.length (evaluations p)) (eval_argv size),
   mkProcess (eval_argv size) (stdout p ++ ["Evaluating test set..."])
             (evaluations p ++ [eval_argv size])).
Proof. reflexivity. Qed.

Lemma for_each_cons (size : Z) (rest : list Z) (p : process) :
  for_each (size :: rest) p =
  match loop_body size p with
  | (Py.Ok _, p') => for_each rest p'
  | (Py.Raise e, p') => (Py.Raise e, p')
  end.
Proof. reflexivity. Qed.

(** The loop, from any process: either every evaluation returned and all
    sizes were evaluated in order, or evaluation number [k] raised, the
    exception left the loop, and no later size was evaluated. *)
Lemma for_each_outcome (sizes : list Z) :
  forall p,
    (fst (for_each sizes p) = Py.Ok tt /\
     evaluations (snd (for_each sizes p)) = (evaluations p ++ map eval_argv sizes)%list)
    \/
    (exists k e,
        (k < List.length sizes)%nat /\
        fst (for_each sizes p) = Py.Raise e /\
        mace_eval_configs_main (List.length (evaluations p) + k)
                               (eval_argv (nth k sizes 0)) = Py.Raise e /\
        evaluations (snd (for_each sizes p))
        = (evaluations p ++ map eval_argv (firstn (S k) sizes))%list).
Proof.
  induction sizes as [|size rest IH]; intros p.
  - left. simpl. rewrite app_nil_r. split; reflexivity.
  - rewrite for_each_cons, loop_body_run.
    destruct (mace_eval_configs_main (List.length (evaluations p)) (eval_argv size))
      as [[]|e] eqn:E.
    + destruct (IH (mkProcess (eval_argv size) (stdout p ++ ["Evaluating test set..."])
                              (evaluations p ++ [eval_argv size]))) as [[Hr Hev] | (k & e & Hk & Hr & Hm & Hev)].
      * left. split; [exact Hr|]. rewrite Hev. simpl. rewrite <- app_assoc. reflexivity.
      * right. exists (S k), e. simpl evaluations in *.
        rewrite length_app in Hm. simpl in Hm.
        replace (List.length (evaluations p) + S k)%nat
          with (List.length (evaluations p) + 1 + k)%nat by lia.
        repeat split; [simpl; lia | exact Hr | exact Hm |].
        rewrite Hev. cbn [firstn map]. rewrite <- app_assoc. reflexivity.
    + right. exists 0%nat, e. rewrite Nat.add_0_r.
      repeat split; [simpl; lia | exact E].
Qed.

(** After the loop [sys.argv] is the argument vector of the last
    evaluation made, or what it was when none was made. *)
Lemma for_each_sys_argv (sizes : list Z) :
  forall p, exists calls,
    evaluations (snd (for_each sizes p)) = (evaluations p ++ calls)%list /\
    sys_argv (snd (for_each sizes p)) = last calls (sys_argv p).
Proof.
  induction sizes as [|size rest IH]; intros p.
  - exists []. simpl. rewrite app_nil_r. split; reflexivity.
  - rewrite for_each_cons, loop_body_run.
    destruct (mace_eval_configs_main (List.length (evaluations p)) (eval_argv size))
      as [[]|e].
    + destruct (IH (mkProcess (eval_argv size) (stdout p ++ ["Evaluating test set..."])
                              (evaluations p ++ [eval_argv size]))) as (calls & Hev & Hargv).
      exists (eval_argv size :: calls). simpl evaluations in *. simpl sys_argv in *.
      split; [rewrite Hev, <- app_assoc; reflexivity|].
      rewrite Hargv. destruct calls as [|c calls]; [reflexivity|].
      change (last (eval_argv size :: c :: calls) (sys_argv p))
        with (last (c :: calls) (sys_argv p)).
      apply last_nonempty.
    + exists [eval_argv size]. split; reflexivity.
Qed.

Lemma run_script_parsed (argv : list string) (sizes : list Z) :
  Argparse.parse_args (List.tl argv) = Argparse.Parsed sizes ->
  run_script argv = for_each sizes (mkProcess argv [] []).
Proof. intros E. unfold run_script, ModelEvaluation.run_script, main. simpl. rewrite E. reflexivity. Qed.

Lemma run_script_exit (argv : list string) (status : Z) :
  Argparse.parse_args (List.tl argv) = Argparse.ParserExit status ->
  run_script argv = (Py.Raise (Py.SystemExit status), mkProcess argv [] []).
Proof. intros E. unfold run_script, ModelEvaluation.run_script, main. simpl. rewrite E. reflexivity. Qed.



(** C9, as amended.  Whatever [sys.argv] held and whatever the entry point
    answers, after [eval_mace(configs, model, output)] the global [sys.argv]
    is the seven-element list built from the three arguments; nothing puts
    the former value back, so two processes that differed only in their
    command line no longer differ in [sys.argv].  At the end of the script
    [sys.argv] is the vector of the last evaluation made (the command line
    itself only when no evaluation was made). *)
Theorem eval_mace_overwrites_sys_argv (configs model output : string) (p q : process) (argv : list string) :
  sys_argv (snd (eval_mace configs model output p))
  = ["program"; "--configs"; configs; "--model"; model; "--output"; output] /\
  List.length (sys_argv (snd (eval_mace configs model output p))) = 7%nat /\
  sys_argv (snd (eval_mace configs model output p))
  = sys_argv (snd (eval_mace configs model output q)) /\
  sys_argv (snd (run_script argv)) = last (evaluations (snd (run_script argv))) argv.
Proof.
  rewrite !eval_mace_run. simpl. repeat split.
  destruct (Argparse.parse_args (List.tl argv)) as [sizes|status] eqn:E.
  - rewrite (run_script_parsed _ _ E).
    destruct (for_each_sys_argv sizes (mkProcess argv [] [])) as (calls & Hev & Hargv).
    rewrite Hev, Hargv. reflexivity.
  - rewrite (run_script_exit _ _ E). reflexivity.
Qed.


End Script.



(** C9, the claim as stated fails: the list assigned to [sys.argv] has seven
    elements, not five. *)
Lemma sys_argv_has_seven_elements :
  sys_argv (snd (eval_mace (fun _ _ => Py.Ok tt) "c.xyz" "m.model" "o.xyz"
                           (mkProcess ["model_evaulation.py"; "10"] [] [])))
  = ["program"; "--configs"; "c.xyz"; "--model"; "m.model"; "--output"; "o.xyz"] /\
  List.length (sys_argv (snd (eval_mace (fun _ _ => Py.Ok tt) "c.xyz" "m.model" "o.xyz"
                                        (mkProcess ["model_evaulation.py"; "10"] [] []))))
  = 7%nat /\
  7%nat <> 5%nat.
Proof. repeat split. discriminate. Qed.

End ModelEvaluationFacts.

(* ===================================================================== *)
(** * Proofs: centre-of-mass removal in exact arithmetic                  *)
(* ===================================================================== *)

Module ExactFacts.
Import CaCO3MD.
Local Open Scope Q_scope.


Lemma fold_left_Qplus (l : list Q) :
  forall acc, fold_left Qplus l acc == acc + qsum l.
Proof.
  induction l as [|x l IH]; intros acc; simpl.
  - ring.
  - rewrite IH. ring.
Qed.

Lemma sum_qsum (l : list Q) : Np.sum l == qsum l.
Proof. unfold Np.sum. simpl. rewrite fold_left_Qplus. ring. Qed.

Lemma set_momenta_masses (atoms : Atoms Q) :
  forall p, List.length p = List.length atoms ->
  get_masses (set_momenta atoms p) = get_masses atoms.
Proof.
  induction atoms as [|a atoms IH]; intros [|v p] Hlen; simpl in *; try discriminate.
  - reflexivity.
  - f_equal. apply IH. lia.
Qed.

Lemma set_momenta_momenta (atoms : Atoms Q) :
  forall p, List.length p = List.length atoms ->
  get_momenta (set_momenta atoms p) = p.
Proof.
  induction atoms as [|a atoms IH]; intros [|v p] Hlen; simpl in *; try discriminate.
  - reflexivity.
  - f_equal. apply IH. lia.
Qed.

Lemma subtract_drift_length (ps : list (@Np.vec Q)) (c : @Np.vec Q) :
  forall ms, List.length ps = List.length ms ->
  List.length (subtract_drift ps c ms) = List.length ps.
Proof.
  induction ps as [|p ps IH]; intros [|m ms] Hlen; simpl in *; try discriminate.
  - reflexivity.
  - f_equal. apply IH. lia.
Qed.

(** One component of the rows at a time: [pr] is any of the three
    projections, which commute with the row operations. *)
Section Component.
Variable pr : @Np.vec Q -> Q.
Hypothesis pr_zero : pr Np.vzero == 0.
Hypothesis pr_add : forall u v, pr (Np.vadd u v) == pr u + pr v.
Hypothesis pr_sub : forall u v, pr (Np.vsub u v) == pr u - pr v.
Hypothesis pr_scale : forall v c, pr (Np.vscale v c) == pr v * c.
Hypothesis pr_div : forall v c, pr (Np.vdiv v c) == pr v / c.

Lemma fold_left_vadd (rows : list (@Np.vec Q)) :
  forall acc, pr (fold_left Np.vadd rows acc) == pr acc + qsum (map pr rows).
Proof.
  induction rows as [|r rows IH]; intros acc; simpl.
  - ring.
  - rewrite IH, pr_add. ring.
Qed.

Lemma sum_axis0_component (rows : list (@Np.vec Q)) :
  pr (Np.sum_axis0 rows) == qsum (map pr rows).
Proof. unfold Np.sum_axis0. rewrite fold_left_vadd, pr_zero. ring. Qed.

(** Subtracting [c * m_i] from every row lowers the column sum by
    [c * sum m]. *)
Lemma subtract_drift_component (ps : list (@Np.vec Q)) (c : @Np.vec Q) :
  forall ms, List.length ps = List.length ms ->
  qsum (map pr (subtract_drift ps c ms)) == qsum (map pr ps) - pr c * qsum ms.
Proof.
  induction ps as [|p ps IH]; intros [|m ms] Hlen; simpl in *; try discriminate.
  - ring.
  - rewrite IH by lia. rewrite pr_sub, pr_scale. ring.
Qed.

(** With [c] the centre-of-mass velocity the column sum vanishes. *)
Lemma drift_removed_component (atoms : Atoms Q) :
  ~ total_mass atoms == 0 ->
  pr (Np.sum_axis0
        (subtract_drift (get_momenta atoms) (com_velocity_of atoms) (get_masses atoms)))
  == 0.
Proof.
  intros Hmass.
  rewrite sum_axis0_component, subtract_drift_component
    by (unfold get_momenta, get_masses; rewrite !length_map; reflexivity).
  unfold com_velocity_of. rewrite pr_div, sum_axis0_component.
  unfold total_mass in Hmass. rewrite sum_qsum in *.
  field. exact Hmass.
Qed.

End Component.

Lemma total_momentum_removed (atoms : Atoms Q) :
  ~ total_mass atoms == 0 ->
  veq (Np.sum_axis0
         (subtract_drift (get_momenta atoms) (com_velocity_of atoms) (get_masses atoms)))
      (0, 0, 0).
Proof.
  intros Hmass. unfold veq. simpl fst. simpl snd. repeat split.
  - apply (drift_removed_component (fun v => fst (fst v))); try exact Hmass;
      try reflexivity; intros [[a b] c]; try intros [[a' b'] c']; try intros k; reflexivity.
  - apply (drift_removed_component (fun v => snd (fst v))); try exact Hmass;
      try reflexivity; intros [[a b] c]; try intros [[a' b'] c']; try intros k; reflexivity.
  - apply (drift_removed_component (fun v => snd v)); try exact Hmass;
      try reflexivity; intros [[a b] c]; try intros [[a' b'] c']; try intros k; reflexivity.
Qed.

Lemma subtract_drift_rows (atoms : Atoms Q) (c : @Np.vec Q) :
  Forall2 (fun a a' =>
             mass a' = mass a /\
             momentum a' = Np.vsub (momentum a) (Np.vscale c (mass a)))
          atoms
          (set_momenta atoms (subtract_drift (get_momenta atoms) c (get_masses atoms))).
Proof.
  induction atoms as [|a atoms IH]; simpl; constructor; auto.
Qed.

(** C2.  For a non-empty system of positive total mass, in exact
    arithmetic: [remove_COM_velocity] returns; it leaves the masses alone
    and replaces each momentum p_i by p_i - (sum p / sum m) * m_i; and the
    total momentum of the system it returns is zero in each component. *)
Theorem remove_COM_velocity_zero_total_momentum (atoms : Atoms Q) :
  atoms <> [] ->
  0 < total_mass atoms ->
  exists atoms',
    remove_COM_velocity atoms = Py.Ok atoms' /\
    Forall2 (fun a a' =>
               mass a' = mass a /\
               momentum a' =
               Np.vsub (momentum a)
                       (Np.vscale (Np.vdiv (total_momentum atoms) (total_mass atoms))
                                  (mass a)))
            atoms atoms' /\
    veq (total_momentum atoms') (0, 0, 0).
Proof.
  intros _ Hpos.
  assert (Hmass : ~ total_mass atoms == 0).
  { intros E. rewrite E in Hpos. apply (Qlt_irrefl 0), Hpos. }
  eexists. split; [reflexivity|]. split.
  - apply subtract_drift_rows.
  - unfold total_momentum at 1.
    rewrite set_momenta_momenta.
    + apply total_momentum_removed, Hmass.
    + rewrite subtract_drift_length;
        unfold get_momenta, get_masses; rewrite !length_map; reflexivity.
Qed.

(** C2 on a system of two particles of masses 2 and 3. *)
Lemma remove_COM_velocity_zero_total_momentum_witness :
  exists atoms',
    remove_COM_velocity [mkAtom 2 (1, 2, 3); mkAtom 3 (4, -1 # 2, 0)] = Py.Ok atoms' /\
    Forall2 (fun a a' =>
               mass a' = mass a /\
               momentum a' =
               Np.vsub (momentum a)
                       (Np.vscale
                          (Np.vdiv (total_momentum [mkAtom 2 (1, 2, 3); mkAtom 3 (4, -1 # 2, 0)])
                                   (total_mass [mkAtom 2 (1, 2, 3); mkAtom 3 (4, -1 # 2, 0)]))
                          (mass a)))
            [mkAtom 2 (1, 2, 3); mkAtom 3 (4, -1 # 2, 0)] atoms' /\
    veq (total_momentum atoms') (0, 0, 0).
Proof.
  apply (remove_COM_velocity_zero_total_momentum
           [mkAtom 2 (1, 2, 3); mkAtom 3 (4, -1 # 2, 0)]).
  - discriminate.
  - reflexivity.
Defined.

End ExactFacts.

(* ===================================================================== *)
(** * Proofs: the dynamics driver                                         *)
(* ===================================================================== *)

Module DriverFacts.
Import CaCO3MD.
Import Driver.


Lemma step_range_S (n0 : N) (k : nat) :
  step_range n0 (S k) = ((n0 + 1)%N :: step_range (n0 + 1) k).
Proof.
  unfold step_range. simpl. f_equal.
  rewrite <- seq_shift, map_map. apply map_ext. intros i. lia.
Qed.

Lemma step_range_snoc (k : nat) :
  step_range 0 (S k) = (step_range 0 k ++ [N.of_nat (S k)])%list.
Proof.
  unfold step_range. rewrite seq_S, map_app. reflexivity.
Qed.

(** [floor((n + 1) / d)] exceeds [floor(n / d)] by one exactly when [d]
    divides [n + 1]. *)
Lemma div_succ (n d : N) :
  (0 < d)%N ->
  ((n + 1) / d = n / d + (if (n + 1) mod d =? 0 then 1 else 0))%N.
Proof.
  intros Hd.
  pose proof (N.div_mod n d ltac:(lia)) as Hn.
  pose proof (N.mod_lt n d ltac:(lia)) as Hr.
  remember (n / d)%N as q eqn:Eq. remember (n mod d)%N as r eqn:Er.
  destruct (N.eq_dec (r + 1) d) as [Hfull|Hpart].
  - (* the remainder wraps: n + 1 = d * (q + 1) *)
    assert (Hsplit : (n + 1 = d * (q + 1) + 0)%N).
    { rewrite N.mul_add_distr_l, N.mul_1_r. remember (d * q)%N as dq. lia. }
    rewrite <- (N.mod_unique _ _ _ _ Hd Hsplit).
    rewrite <- (N.div_unique _ _ _ _ Hd Hsplit). reflexivity.
  - (* the remainder grows by one and stays below d *)
    assert (Hlt : (r + 1 < d)%N) by lia.
    assert (Hsplit : (n + 1 = d * q + (r + 1))%N).
    { remember (d * q)%N as dq. lia. }
    rewrite <- (N.mod_unique _ _ _ _ Hlt Hsplit).
    rewrite <- (N.div_unique _ _ _ _ Hlt Hsplit).
    destruct (N.eqb_spec (r + 1) 0); lia.
Qed.

(** Among the steps 1..k, those at which an observer of interval [d] is due
    number [floor(k / d)]. *)
Lemma count_due (d : N) (k : nat) :
  (0 < d)%N ->
  N.of_nat (List.length (filter (fun s => due s d) (step_range 0 k)))
  = (N.of_nat k / d)%N.
Proof.
  intros Hd. induction k as [|k IH].
  - simpl. rewrite N.Div0.div_0_l. reflexivity.
  - rewrite step_range_snoc, filter_app, length_app, Nat2N.inj_add, IH.
    replace (N.of_nat (S k)) with (N.of_nat k + 1)%N by lia.
    rewrite (div_succ (N.of_nat k) d Hd). f_equal.
    simpl. unfold due.
    destruct (N.ltb_spec 0 d) as [_|]; [|lia]. simpl.
    destruct ((N.of_nat k + 1) mod d =? 0)%N; reflexivity.
Qed.

Section Generic.
Variables (W callback : Type).
Variable integrate : N -> W -> Py.result W.
Variable invoke : callback -> W -> Py.result W.

Lemma call_observers_log (s : N) (obs : list (callback * N)) :
  forall w w' log,
    call_observers invoke s obs w = (None, w', log) -> log = schedule obs s.
Proof.
  induction obs as [|[action interval] rest IH]; intros w w' log Hcall; simpl in Hcall.
  - injection Hcall as _ <-. reflexivity.
  - unfold schedule. simpl. destruct (due s interval).
    + destruct (invoke action w) as [w1|e]; [|discriminate].
      destruct (call_observers invoke s rest w1) as [[e1 w2] log1] eqn:E.
      injection Hcall as -> _ <-. simpl. f_equal. apply (IH _ _ _ E).
    + apply (IH _ _ _ Hcall).
Qed.

(** A run that ends [Completed] made every step, and its log is the
    schedule of [step mod interval == 0] over the steps made. *)
Lemma steps_completed (k : nat) :
  forall dyn w dyn' w',
    steps integrate invoke k dyn w = (dyn', w') ->
    status dyn' = Completed ->
    nsteps dyn' = (nsteps dyn + N.of_nat k)%N /\
    invocations dyn'
    = (invocations dyn
       ++ flat_map (schedule (observers dyn)) (step_range (nsteps dyn) k))%list.
Proof.
  induction k as [|k IH]; intros dyn w dyn' w' Hrun Hdone.
  - simpl in Hrun. injection Hrun as <- _. simpl.
    split; [lia | rewrite app_nil_r; reflexivity].
  - cbn [steps] in Hrun.
    destruct (integrate (nsteps dyn + 1)%N w) as [w1|e].
    + destruct (call_observers invoke (nsteps dyn + 1)%N (observers dyn) w1)
        as [[[e|] w2] log] eqn:Ecall.
      * injection Hrun as <- _. discriminate Hdone.
      * apply call_observers_log in Ecall. subst log.
        destruct (IH _ _ _ _ Hrun Hdone) as [Hn Hlog]. simpl in Hn, Hlog.
        split; [lia|].
        rewrite Hlog, step_range_S. simpl. rewrite <- app_assoc. reflexivity.
    + injection Hrun as <- _. discriminate Hdone.
Qed.

(** A property of the world that the integrator and the callbacks keep is
    kept by the run, on every way out of it. *)
Lemma call_observers_invariant (P : W -> Prop) (s : N) (obs : list (callback * N)) :
  (forall action w w', invoke action w = Py.Ok w' -> P w -> P w') ->
  forall w, P w -> P (snd (fst (call_observers invoke s obs w))).
Proof.
  intros Hinv. induction obs as [|[action interval] rest IH]; intros w Hw; simpl.
  - exact Hw.
  - destruct (due s interval); [|apply IH, Hw].
    destruct (invoke action w) as [w1|e] eqn:E; [|exact Hw].
    specialize (IH w1 (Hinv _ _ _ E Hw)).
    destruct (call_observers invoke s rest w1) as [[e1 w2] log]. exact IH.
Qed.

Lemma steps_invariant (P : W -> Prop) :
  (forall s w w', integrate s w = Py.Ok w' -> P w -> P w') ->
  (forall action w w', invoke action w = Py.Ok w' -> P w -> P w') ->
  forall k dyn w, P w -> P (snd (steps integrate invoke k dyn w)).
Proof.
  intros Hint Hinv. induction k as [|k IH]; intros dyn w Hw; cbn [steps].
  - exact Hw.
  - destruct (integrate (nsteps dyn + 1)%N w) as [w1|e] eqn:E; [|exact Hw].
    pose proof (call_observers_invariant P (nsteps dyn + 1)%N (observers dyn) Hinv w1
                  (Hint _ _ _ E Hw)) as Hcall.
    destruct (call_observers invoke (nsteps dyn + 1)%N (observers dyn) w1)
      as [[[e|] w2] log]; simpl in Hcall.
    + exact Hcall.
    + apply IH, Hcall.
Qed.

Lemma run_invariant (P : W -> Prop) :
  (forall s w w', integrate s w = Py.Ok w' -> P w -> P w') ->
  (forall action w w', invoke action w = Py.Ok w' -> P w -> P w') ->
  forall dyn n w, P w -> P (snd (run integrate invoke dyn n w)).
Proof.
  intros Hint Hinv dyn n w Hw. unfold run.
  destruct (status dyn); try exact Hw.
  apply steps_invariant; assumption.
Qed.

(** A counter kept in the world: the integrator leaves it alone and each
    returning callback adds its own weight to it. *)
Section Counter.
Variable measure : W -> nat.
Variable weight : callback -> nat.
Hypothesis integrate_measure :
  forall s w w', integrate s w = Py.Ok w' -> measure w' = measure w.
Hypothesis invoke_measure :
  forall action w w', invoke action w = Py.Ok w' ->
                      measure w' = (measure w + weight action)%nat.


Lemma total_weight_app (a b : list (callback * N)) :
  total_weight weight (a ++ b)%list
  = (total_weight weight a + total_weight weight b)%nat.
Proof. induction a as [|x a IH]; simpl; [reflexivity | rewrite IH; lia]. Qed.

Lemma call_observers_measure (s : N) (obs : list (callback * N)) :
  forall w w' log,
    call_observers invoke s obs w = (None, w', log) ->
    measure w' = (measure w + total_weight weight log)%nat.
Proof.
  induction obs as [|[action interval] rest IH]; intros w w' log Hcall; simpl in Hcall.
  - injection Hcall as <- <-. simpl. lia.
  - destruct (due s interval); [|apply (IH _ _ _ Hcall)].
    destruct (invoke action w) as [w1|e] eqn:E; [|discriminate].
    destruct (call_observers invoke s rest w1) as [[e1 w2] log1] eqn:Ecall.
    injection Hcall as -> <- <-.
    rewrite (IH _ _ _ Ecall), (invoke_measure _ _ _ E). simpl. lia.
Qed.

Lemma steps_measure (k : nat) :
  forall dyn w dyn' w',
    steps integrate invoke k dyn w = (dyn', w') ->
    status dyn' = Completed ->
    (measure w' + total_weight weight (invocations dyn)
     = measure w + total_weight weight (invocations dyn'))%nat.
Proof.
  induction k as [|k IH]; intros dyn w dyn' w' Hrun Hdone.
  - simpl in Hrun. injection Hrun as <- <-. simpl. lia.
  - cbn [steps] in Hrun.
    destruct (integrate (nsteps dyn + 1)%N w) as [w1|e] eqn:E.
    + destruct (call_observers invoke (nsteps dyn + 1)%N (observers dyn) w1)
        as [[[e|] w2] log] eqn:Ecall.
      * injection Hrun as <- _. discriminate Hdone.
      * pose proof (IH _ _ _ _ Hrun Hdone) as Hk. simpl in Hk.
        rewrite total_weight_app in Hk.
        rewrite (call_observers_measure _ _ _ _ _ Ecall), (integrate_measure _ _ _ E) in Hk.
        lia.
    + injection Hrun as <- _. discriminate Hdone.
Qed.

End Counter.
End Generic.

End DriverFacts.

(* ===================================================================== *)
(** * Proofs: scripts/caco3_MD.py                                         *)
(* ===================================================================== *)

Module ScriptFacts.
Import CaCO3MD.
Import Driver.
Import DriverFacts.

Lemma count_app {callback : Type} (same : callback -> callback -> bool)
    (action : callback) (a b : list (callback * N)) :
  count same action (a ++ b) = (count same action a + count same action b)%nat.
Proof. unfold count. rewrite filter_app, length_app. reflexivity. Qed.


Lemma total_weight_indicator (action : callback) (log : list (callback * N)) :
  total_weight (indicator action) log = count same_callback action log.
Proof.
  unfold count, indicator. induction log as [|[other s] log IH]; simpl; [reflexivity|].
  rewrite IH. destruct (same_callback action other); reflexivity.
Qed.

(** With the script's two observers, [printenergy] is scheduled at the
    steps its interval divides, and [traj.write] at those its own interval
    divides. *)
Lemma count_printenergy_schedule (d t : N) (l : list N) :
  count same_callback Printenergy
        (flat_map (schedule [(Printenergy, d); (TrajWrite, t)]) l)
  = List.length (filter (fun s => due s d) l).
Proof.
  induction l as [|s l IH]; [reflexivity|].
  cbn [flat_map filter]. rewrite count_app, IH.
  unfold schedule. cbn [filter snd].
  destruct (due s d), (due s t); reflexivity.
Qed.

Lemma count_traj_write_schedule (d t : N) (l : list N) :
  count same_callback TrajWrite
        (flat_map (schedule [(Printenergy, d); (TrajWrite, t)]) l)
  = List.length (filter (fun s => due s t) l).
Proof.
  induction l as [|s l IH]; [reflexivity|].
  cbn [flat_map filter]. rewrite count_app, IH.
  unfold schedule. cbn [filter snd].
  destruct (due s d), (due s t); reflexivity.
Qed.

Section Script.
Context {F : Type} `{Arithmetic F}.
Variable kB : Q.
Variable get_potential_energy : Atoms F -> Py.result Q.
Variable get_kinetic_energy : Atoms F -> Q.
Variable time_time : nat -> Q.
Variable MaxwellBoltzmannDistribution : Atoms F -> Z -> Py.result (Atoms F).
Variable bussi_step : N -> Atoms F -> Py.result (Atoms F).
Variable writable : string -> bool.
Variable storage_left : nat -> bool.

#[local] Abbreviation world := (@CaCO3MD.world F).
#[local] Abbreviation printenergy :=
  (CaCO3MD.printenergy kB get_potential_energy get_kinetic_energy time_time).
#[local] Abbreviation traj_write := (CaCO3MD.traj_write storage_left).
#[local] Abbreviation invoke :=
  (CaCO3MD.invoke kB get_potential_energy get_kinetic_energy time_time storage_left).
#[local] Abbreviation integrate := (CaCO3MD.integrate bussi_step).
#[local] Abbreviation script :=
  (CaCO3MD.script kB get_potential_energy get_kinetic_energy time_time
                  MaxwellBoltzmannDistribution bussi_step writable storage_left).

(** What a returning [printenergy] changes: one more line on the console
    and one more reading of the clock. *)
Lemma printenergy_effect (w w' : world) :
  printenergy w = Py.Ok w' ->
  exists line,
    w' = mkWorld (CaCO3 w) (start_time w) (S (clock_reads w))
                 (console w ++ [line]) (open_files w) (frames w).
Proof.
  unfold CaCO3MD.printenergy.
  destruct (get_potential_energy (CaCO3 w)) as [potential|e]; [|discriminate].
  destruct (truediv potential (List.length (CaCO3 w))) as [epot|e]; [|discriminate].
  destruct (truediv (get_kinetic_energy (CaCO3 w)) (List.length (CaCO3 w))) as [ekin|e];
    [|discriminate].
  destruct (divmod60 (time_time (clock_reads w) - start_time w)) as [elapsed_min elapsed_sec].
  intros [= <-]. eexists. reflexivity.
Qed.

Lemma traj_write_effect (w w' : world) :
  traj_write w = Py.Ok w' ->
  w' = mkWorld (CaCO3 w) (start_time w) (clock_reads w) (console w)
               (open_files w) (frames w ++ [CaCO3 w]).
Proof.
  unfold CaCO3MD.traj_write. destruct (storage_left _); [|discriminate].
  intros [= <-]. reflexivity.
Qed.

Lemma integrate_effect (s : N) (w w' : world) :
  integrate s w = Py.Ok w' ->
  console w' = console w /\ frames w' = frames w /\ open_files w' = open_files w.
Proof.
  unfold CaCO3MD.integrate. destruct (bussi_step s (CaCO3 w)); [|discriminate].
  intros [= <-]. repeat split.
Qed.

Lemma invoke_console (action : callback) (w w' : world) :
  invoke action w = Py.Ok w' ->
  List.length (console w') = (List.length (console w) + indicator Printenergy action)%nat.
Proof.
  destruct action; unfold indicator; simpl; intros E.
  - apply printenergy_effect in E as (line & ->). simpl. rewrite length_app. reflexivity.
  - apply traj_write_effect in E as ->. simpl. lia.
Qed.

Lemma invoke_frames (action : callback) (w w' : world) :
  invoke action w = Py.Ok w' ->
  List.length (frames w') = (List.length (frames w) + indicator TrajWrite action)%nat.
Proof.
  destruct action; unfold indicator; simpl; intros E.
  - apply printenergy_effect in E as (line & ->). simpl. lia.
  - apply traj_write_effect in E as ->. simpl. rewrite length_app. reflexivity.
Qed.

Lemma invoke_open_files (action : callback) (w w' : world) :
  invoke action w = Py.Ok w' -> open_files w' = open_files w.
Proof.
  destruct action; simpl; intros E.
  - apply printenergy_effect in E as (line & ->). reflexivity.
  - apply traj_write_effect in E as ->. reflexivity.
Qed.

(** A run that surfaced no error is [Completed]. *)
Lemma steps_no_failure (k : nat) :
  forall (dyn : driver callback) (w : world),
    failure (fst (steps integrate invoke k dyn w)) = None ->
    status (fst (steps integrate invoke k dyn w)) = Completed.
Proof.
  induction k as [|k IH]; intros dyn w; cbn [steps]; [reflexivity|].
  destruct (integrate (nsteps dyn + 1)%N w) as [w1|e]; [|discriminate].
  destruct (call_observers invoke (nsteps dyn + 1)%N (observers dyn) w1)
    as [[[e|] w2] log]; [discriminate|].
  apply IH.
Qed.

(** The run of the script's driver, when it completes. *)
Lemma run_attached_completed (cfg : run_config) (w : world)
    (dyn : driver callback) (w' : world) :
  (0 < diagnostics_interval cfg)%N ->
  (0 < trajectory_interval cfg)%N ->
  run integrate invoke (attached cfg) (n_steps cfg) w = (dyn, w') ->
  status dyn = Completed ->
  nsteps dyn = n_steps cfg /\
  N.of_nat (count same_callback Printenergy (invocations dyn))
  = (n_steps cfg / diagnostics_interval cfg)%N /\
  N.of_nat (count same_callback TrajWrite (invocations dyn))
  = (n_steps cfg / trajectory_interval cfg)%N /\
  List.length (console w')
  = (List.length (console w) + count same_callback Printenergy (invocations dyn))%nat /\
  List.length (frames w')
  = (List.length (frames w) + count same_callback TrajWrite (invocations dyn))%nat.
Proof.
  intros Hd Ht Hrun Hdone. unfold run in Hrun. cbn [attached attach new_driver status
    nsteps observers invocations app] in Hrun.
  pose proof (steps_completed _ _ integrate invoke _ _ _ _ _ Hrun Hdone) as [Hn Hlog].
  cbn [nsteps observers invocations app] in Hn, Hlog.
  assert (Hconsole := steps_measure _ _ integrate invoke
            (fun w : world => List.length (console w)) (indicator Printenergy)
            (fun s w w' E => f_equal (@List.length _) (proj1 (integrate_effect s w w' E)))
            invoke_console _ _ _ _ _ Hrun Hdone).
  assert (Hframes := steps_measure _ _ integrate invoke
            (fun w : world => List.length (frames w)) (indicator TrajWrite)
            (fun s w w' E =>
               f_equal (@List.length _) (proj1 (proj2 (integrate_effect s w w' E))))
            invoke_frames _ _ _ _ _ Hrun Hdone).
  cbn [invocations] in Hconsole, Hframes.
  rewrite !total_weight_indicator in Hconsole, Hframes.
  cbn [count filter List.length] in Hconsole, Hframes.
  rewrite Hlog in Hconsole, Hframes |- *.
  rewrite count_printenergy_schedule, count_traj_write_schedule in *.
  rewrite !count_due by assumption. rewrite N2Nat.id in *.
  repeat split; lia.
Qed.


(** C1.  A successful run of the script with N > 0 steps and positive
    observer intervals d <= N and t <= N ends [Completed] at step N; during
    the run [printenergy] was invoked floor(N / d) times and [traj.write]
    floor(N / t) times.  On the console this makes 1 + floor(N / d) lines,
    the first one being the call the script makes itself before the run, and
    the trajectory holds floor(N / t) records. *)
Theorem observers_invoked_floor_times (cfg : run_config) (atoms0 : Atoms F)
    (dyn : driver callback) (w' : world) :
  (0 < n_steps cfg)%N ->
  (0 < diagnostics_interval cfg <= n_steps cfg)%N ->
  (0 < trajectory_interval cfg <= n_steps cfg)%N ->
  script cfg atoms0 = (Py.Ok dyn, w') ->
  status dyn = Completed /\
  nsteps dyn = n_steps cfg /\
  N.of_nat (count same_callback Printenergy (invocations dyn))
  = (n_steps cfg / diagnostics_interval cfg)%N /\
  N.of_nat (count same_callback TrajWrite (invocations dyn))
  = (n_steps cfg / trajectory_interval cfg)%N /\
  N.of_nat (List.length (console w')) = (1 + n_steps cfg / diagnostics_interval cfg)%N /\
  N.of_nat (List.length (frames w')) = (n_steps cfg / trajectory_interval cfg)%N.
Proof.
  intros _ [Hd _] [Ht _] Hscript. unfold CaCO3MD.script in Hscript.
  destruct (initialize_velocities MaxwellBoltzmannDistribution atoms0 (T_init cfg))
    as [atoms1|e]; [|discriminate].
  unfold Trajectory in Hscript. destruct (writable traj_path); [|discriminate].
  cbn [CaCO3 start_time clock_reads console open_files frames] in Hscript.
  match type of Hscript with
  | context [CaCO3MD.printenergy _ _ _ _ ?w] =>
      destruct (CaCO3MD.printenergy kB get_potential_energy get_kinetic_energy time_time w)
        as [w3|e] eqn:Eprint; [|discriminate]
  end.
  apply printenergy_effect in Eprint as (line & ->).
  cbn [CaCO3 start_time clock_reads console open_files frames app] in Hscript.
  match type of Hscript with
  | context [run _ _ _ _ ?w] =>
      destruct (run integrate invoke (attached cfg) (n_steps cfg) w) as [dyn1 w4] eqn:Erun
  end.
  assert (Hdone : failure dyn1 = None -> status dyn1 = Completed).
  { intros Hnone. unfold run in Erun. cbn [attached attach new_driver status] in Erun.
    match type of Erun with
    | steps _ _ ?k ?d ?w = _ =>
        pose proof (steps_no_failure k d w) as Hs; rewrite Erun in Hs; apply Hs, Hnone
    end. }
  destruct (failure dyn1) as [[e s]|]; [discriminate|].
  injection Hscript as -> ->. specialize (Hdone eq_refl).
  destruct (run_attached_completed cfg _ _ _ Hd Ht Erun Hdone)
    as (Hn & Hprint & Htraj & Hconsole & Hframes).
  cbn [console frames List.length] in Hconsole, Hframes.
  repeat split; try assumption; lia.
Qed.

(** C4, as amended.  Once [Trajectory(path, 'w', CaCO3)] has opened the
    file, nothing in the script closes it: whether the run completes, the
    integrator raises at some step, or a callback raises, the path is still
    among the files the process holds open when the script's last statement
    is left. *)
Theorem trajectory_left_open (cfg : run_config) (atoms0 atoms1 : Atoms F) :
  initialize_velocities MaxwellBoltzmannDistribution atoms0 (T_init cfg) = Py.Ok atoms1 ->
  writable traj_path = true ->
  open_files (snd (script cfg atoms0)) = [traj_path].
Proof.
  intros Hinit Hopen. unfold CaCO3MD.script. rewrite Hinit.
  unfold Trajectory. rewrite Hopen.
  cbn [CaCO3 start_time clock_reads console open_files frames].
  match goal with
  | |- context [CaCO3MD.printenergy _ _ _ _ ?w] =>
      destruct (CaCO3MD.printenergy kB get_potential_energy get_kinetic_energy time_time w)
        as [w3|e] eqn:Eprint; [|reflexivity]
  end.
  apply printenergy_effect in Eprint as (line & ->).
  cbn [CaCO3 start_time clock_reads console open_files frames app].
  match goal with
  | |- context [run _ _ _ _ ?w3] =>
      pose proof (run_invariant _ _ integrate invoke
                    (fun x : world => open_files x = [traj_path])
                    (fun s x y E Hx =>
                       eq_trans (proj2 (proj2 (integrate_effect s x y E))) Hx)
                    (fun action x y E Hx => eq_trans (invoke_open_files action x y E) Hx)
                    (attached cfg) (n_steps cfg) w3 eq_refl) as Hkept;
      destruct (run integrate invoke (attached cfg) (n_steps cfg) w3) as [dyn1 w4]
  end.
  simpl in Hkept. destruct (failure dyn1) as [[e s]|]; exact Hkept.
Qed.

Lemma int_of_inject_Z (z : Z) : int_of (inject_Z z) = z.
Proof. unfold int_of. simpl. apply Z.quot_1_r. Qed.

(** C5.  On a non-empty system whose energy the calculator returns,
    [printenergy] prints one line made of the potential energy per atom, the
    kinetic energy per atom, the temperature, the total energy per atom and
    the elapsed minutes and seconds, where the temperature is
    (2/3) * Ekin / kB and the total energy is Epot + Ekin. *)
Theorem printenergy_line (w : world) (potential : Q) :
  CaCO3 w <> [] ->
  get_potential_energy (CaCO3 w) = Py.Ok potential ->
  exists line w',
    printenergy w = Py.Ok w' /\
    console w' = (console w ++ [line])%list /\
    (Epot line == potential / inject_Z (Z.of_nat (List.length (CaCO3 w))))%Q /\
    (Ekin line
     == get_kinetic_energy (CaCO3 w) / inject_Z (Z.of_nat (List.length (CaCO3 w))))%Q /\
    (temperature line == (2 # 3) * Ekin line / kB)%Q /\
    (Etot line == Epot line + Ekin line)%Q /\
    elapsed_minutes line = Qfloor ((time_time (clock_reads w) - start_time w) / 60) /\
    elapsed_seconds line
    = int_of ((time_time (clock_reads w) - start_time w)
              - 60 * inject_Z (elapsed_minutes line))%Q.
Proof.
  intros Hatoms Hpot. unfold CaCO3MD.printenergy. rewrite Hpot.
  destruct (CaCO3 w) as [|a rest] eqn:Ea; [congruence|].
  cbn [truediv List.length divmod60].
  eexists. eexists. split; [reflexivity|].
  unfold console, Epot, Ekin, temperature, Etot, elapsed_minutes, elapsed_seconds.
  rewrite int_of_inject_Z.
  repeat split; try reflexivity.
  unfold Qdiv. rewrite Qinv_mult_distr.
  setoid_replace (/ (3 # 2))%Q with (2 # 3)%Q by reflexivity. ring.
Qed.

End Script.

End ScriptFacts.

(* ===================================================================== *)
(** * Proofs: the initializer in binary64                                 *)
(* ===================================================================== *)

Module FloatFacts.
Import CaCO3MD.

Lemma is_zero_inv (m : float) :
  PrimFloat.is_zero m = true -> exists s, Prim2SF m = S754_zero s.
Proof.
  unfold PrimFloat.is_zero. rewrite FloatAxioms.eqb_spec.
  change (Prim2SF PrimFloat.zero) with (S754_zero false).
  destruct (Prim2SF m) as [s| s | | s mm e]; try discriminate.
  - intros _. exists s. reflexivity.
  - destruct s; discriminate.
  - destruct s; discriminate.
Qed.

(** Dividing by a zero gives an infinity or a NaN, whatever is divided. *)
Lemma div_zero_not_finite (x m : float) :
  PrimFloat.is_zero m = true -> PrimFloat.is_finite (x / m) = false.
Proof.
  intros Hm. destruct (is_zero_inv m Hm) as [s Hs].
  pose proof (div_spec x m) as Hdiv. rewrite Hs in Hdiv.
  unfold PrimFloat.is_finite, PrimFloat.is_nan, PrimFloat.is_infinity.
  rewrite !FloatAxioms.eqb_spec, abs_spec, Hdiv.
  change (Prim2SF infinity) with (S754_infinity false).
  destruct (Prim2SF x) as [sx| sx | | sx mx ex]; simpl; try reflexivity.
  all: destruct (xorb sx s); reflexivity.
Qed.

(** C3, as amended.  The velocity initializer validates nothing.
    [remove_COM_velocity] returns on every system; on the system with no
    particle it returns that system; on a system whose total mass is zero
    the division is made all the same and the centre-of-mass velocity is an
    infinity or a NaN in each component.  The initializer raises only what
    the external Maxwell-Boltzmann routine raises, and the temperature is
    handed to that routine unchecked. *)
Theorem initializer_validates_nothing
    (MaxwellBoltzmannDistribution : Atoms float -> Z -> Py.result (Atoms float))
    (atoms : Atoms float) (T_init : Z) :
  (exists atoms', remove_COM_velocity atoms = Py.Ok atoms') /\
  (atoms = [] -> remove_COM_velocity atoms = Py.Ok []) /\
  (forall e, initialize_velocities MaxwellBoltzmannDistribution atoms T_init = Py.Raise e <->
             MaxwellBoltzmannDistribution atoms T_init = Py.Raise e) /\
  (PrimFloat.is_zero (total_mass atoms) = true ->
   PrimFloat.is_finite (fst (fst (com_velocity_of atoms))) = false /\
   PrimFloat.is_finite (snd (fst (com_velocity_of atoms))) = false /\
   PrimFloat.is_finite (snd (com_velocity_of atoms)) = false).
Proof.
  split; [eexists; reflexivity|]. split; [intros ->; reflexivity|]. split.
  - intros e. unfold initialize_velocities.
    destruct (MaxwellBoltzmannDistribution atoms T_init) as [atoms1|e1].
    + split; discriminate.
    + split; intros E; exact E.
  - intros Hzero. unfold com_velocity_of.
    fold (total_mass atoms).
    destruct (Np.sum_axis0 (get_momenta atoms)) as [[px py] pz].
    simpl. repeat split; apply div_zero_not_finite, Hzero.
Qed.

(** C3, the claim as stated fails: with no particle, and with one massless
    particle (total mass zero), [remove_COM_velocity] returns normally; in
    the second case every momentum it stores is a NaN.  No
    [InvalidConfiguration] is raised. *)
Lemma remove_COM_velocity_returns_on_zero_mass :
  remove_COM_velocity Sample.nobody = Py.Ok Sample.nobody /\
  remove_COM_velocity Sample.nobody <> Py.Raise InvalidConfiguration /\
  PrimFloat.is_zero (total_mass Sample.massless) = true /\
  remove_COM_velocity Sample.massless
  = Py.Ok [mkAtom 0%float (PrimFloat.nan, PrimFloat.nan, PrimFloat.nan)] /\
  remove_COM_velocity Sample.massless <> Py.Raise InvalidConfiguration.
Proof.
  split; [reflexivity|]. split; [discriminate|]. split; [reflexivity|].
  split; [vm_compute; reflexivity | discriminate].
Qed.

End FloatFacts.

(* ===================================================================== *)
(** * The script on the sample collaborators                              *)
(* ===================================================================== *)

Module SampleFacts.
Import CaCO3MD.
Import Driver.

(** C1 on the sample run of twelve steps, which succeeds: three invocations
    of [printenergy] and four of [traj.write]; and at the numbers of the
    script, 250000 steps with intervals 1000 and 10: 250 and 25000. *)
Lemma observers_invoked_floor_times_witness :
  (exists dyn w',
      Sample.script Sample.config = (Py.Ok dyn, w') /\
      status dyn = Completed /\
      nsteps dyn = 12%N /\
      N.of_nat (count same_callback Printenergy (invocations dyn)) = 3%N /\
      N.of_nat (count same_callback TrajWrite (invocations dyn)) = 4%N /\
      N.of_nat (List.length (console w')) = 4%N /\
      N.of_nat (List.length (frames w')) = 4%N) /\
  (forall dyn w',
      Sample.script caco3_config = (Py.Ok dyn, w') ->
      status dyn = Completed /\
      nsteps dyn = 250000%N /\
      N.of_nat (count same_callback Printenergy (invocations dyn)) = 250%N /\
      N.of_nat (count same_callback TrajWrite (invocations dyn)) = 25000%N /\
      N.of_nat (List.length (console w')) = 251%N /\
      N.of_nat (List.length (frames w')) = 25000%N).
Proof.
  split.
  - eassert (E : Sample.script Sample.config = (Py.Ok _, _)) by (vm_compute; reflexivity).
    eexists. eexists. split; [exact E|].
    apply (ScriptFacts.observers_invoked_floor_times
             Sample.kB Sample.get_potential_energy Sample.get_kinetic_energy
             Sample.time_time Sample.MaxwellBoltzmannDistribution Sample.bussi_step
             Sample.writable Sample.storage_left Sample.config Sample.atoms _ _);
      [reflexivity | split; [reflexivity | discriminate]
       | split; [reflexivity | discriminate] | exact E].
  - intros dyn w' E.
    apply (ScriptFacts.observers_invoked_floor_times
             Sample.kB Sample.get_potential_energy Sample.get_kinetic_energy
             Sample.time_time Sample.MaxwellBoltzmannDistribution Sample.bussi_step
             Sample.writable Sample.storage_left caco3_config Sample.atoms dyn w');
      [reflexivity | split; [reflexivity | discriminate]
       | split; [reflexivity | discriminate] | exact E].
Defined.

(** C4 on the sample run whose integrator raises at step 3. *)
Lemma trajectory_left_open_witness :
  open_files (snd (Sample.script_raising Sample.config)) = [traj_path].
Proof.
  eapply (ScriptFacts.trajectory_left_open
            Sample.kB Sample.get_potential_energy Sample.get_kinetic_energy
            Sample.time_time Sample.MaxwellBoltzmannDistribution Sample.bussi_step_raising
            Sample.writable Sample.storage_left Sample.config Sample.atoms).
  - reflexivity.
  - reflexivity.
Defined.

(** C4, the claim as stated fails: after a run that completes and after a
    run that the integrator aborts at step 3, the trajectory file is still
    held open. *)
Lemma trajectory_open_on_both_exit_paths :
  (exists dyn, fst (Sample.script Sample.config) = Py.Ok dyn /\ status dyn = Completed) /\
  In traj_path (open_files (snd (Sample.script Sample.config))) /\
  fst (Sample.script_raising Sample.config) = Py.Raise (Py.Exception "RuntimeError") /\
  In traj_path (open_files (snd (Sample.script_raising Sample.config))).
Proof.
  split; [eexists; split; vm_compute; reflexivity|].
  split; [vm_compute; left; reflexivity|].
  split; [vm_compute; reflexivity|].
  vm_compute; left; reflexivity.
Qed.

(** C5 on the sample world before the run. *)
Lemma printenergy_line_witness :
  exists line w',
    printenergy Sample.kB Sample.get_potential_energy Sample.get_kinetic_energy
                Sample.time_time (mkWorld Sample.atoms 0%Q 1 [] [] [])
    = Py.Ok w' /\
    console w' = [line] /\
    (Epot line == -(10) / 2)%Q /\
    (Ekin line == (1 # 10) / 2)%Q /\
    (temperature line == (2 # 3) * Ekin line / Sample.kB)%Q /\
    (Etot line == Epot line + Ekin line)%Q /\
    elapsed_minutes line = 1 /\
    elapsed_seconds line = 15.
Proof.
  destruct (ScriptFacts.printenergy_line
              Sample.kB Sample.get_potential_energy Sample.get_kinetic_energy
              Sample.time_time (mkWorld Sample.atoms 0%Q 1 [] [] []) (-(10))%Q)
    as (line & w' & Hrun & Hconsole & Hpot & Hkin & Htemp & Htot & Hmin & Hsec).
  - discriminate.
  - reflexivity.
  - exists line, w'. rewrite Hsec, Hmin.
    repeat split; try assumption; reflexivity.
Defined.

End SampleFacts.

(* ===================================================================== *)
(** * Further properties: centre-of-mass removal                          *)
(* ===================================================================== *)

Module DriftFacts.
Import CaCO3MD.
Import Stated.

Section AnyArithmetic.
Context {F : Type} `{Arithmetic F}.

Lemma subtract_drift_same_length (ps : list (@Np.vec F)) (c : @Np.vec F) :
  forall ms, List.length ps = List.length ms ->
  List.length (subtract_drift ps c ms) = List.length ps.
Proof.
  induction ps as [|p ps IH]; intros [|m ms] Hlen; simpl in *; try discriminate.
  - reflexivity.
  - f_equal. apply IH. lia.
Qed.

Lemma set_momenta_keeps_masses (atoms : Atoms F) :
  forall p, List.length p = List.length atoms ->
  get_masses (set_momenta atoms p) = get_masses atoms.
Proof.
  induction atoms as [|a atoms IH]; intros [|v p] Hlen; simpl in *; try discriminate.
  - reflexivity.
  - f_equal. apply IH. lia.
Qed.

(** X1.  In any arithmetic, binary64 included, [remove_COM_velocity] returns
    a system with as many particles as it was given and with the same
    masses, in the same order: only momenta are rewritten. *)
Theorem remove_COM_velocity_keeps_masses (atoms : Atoms F) :
  exists atoms',
    remove_COM_velocity atoms = Py.Ok atoms' /\
    List.length atoms' = List.length atoms /\
    get_masses atoms' = get_masses atoms.
Proof.
  eexists. split; [reflexivity|].
  assert (Hlen : List.length (subtract_drift (get_momenta atoms) (com_velocity_of atoms)
                                             (get_masses atoms))
                 = List.length atoms).
  { rewrite subtract_drift_same_length;
      unfold get_momenta, get_masses; rewrite !length_map; reflexivity. }
  split.
  - rewrite <- (length_map mass), <- (length_map mass atoms).
    f_equal. apply set_momenta_keeps_masses, Hlen.
  - apply set_momenta_keeps_masses, Hlen.
Qed.

End AnyArithmetic.

Local Open Scope Q_scope.

Lemma Forall2_nth_error {A B : Type} (R : A -> B -> Prop) (l : list A) (l' : list B) :
  Forall2 R l l' ->
  forall i a b, nth_error l i = Some a -> nth_error l' i = Some b -> R a b.
Proof.
  induction 1 as [|x y l l' Hxy _ IH]; intros [|i] a b Ha Hb; simpl in *; try discriminate.
  - injection Ha as <-. injection Hb as <-. exact Hxy.
  - apply (IH i a b Ha Hb).
Qed.

Lemma removed_masses (atoms : Atoms Q) : get_masses (removed atoms) = get_masses atoms.
Proof.
  apply set_momenta_keeps_masses. rewrite subtract_drift_same_length;
    unfold get_momenta, get_masses; rewrite !length_map; reflexivity.
Qed.

Lemma removed_total_mass (atoms : Atoms Q) : total_mass (removed atoms) = total_mass atoms.
Proof. unfold total_mass. rewrite removed_masses. reflexivity. Qed.

Lemma removed_total_momentum (atoms : Atoms Q) :
  ~ total_mass atoms == 0 -> veq (total_momentum (removed atoms)) (0, 0, 0).
Proof.
  intros Hmass. unfold total_momentum, removed.
  rewrite ExactFacts.set_momenta_momenta.
  - apply ExactFacts.total_momentum_removed, Hmass.
  - rewrite subtract_drift_same_length;
      unfold get_momenta, get_masses; rewrite !length_map; reflexivity.
Qed.

(** Subtracting a drift that is zero changes no momentum. *)
Lemma zero_drift_rows (atoms : Atoms Q) (c : @Np.vec Q) :
  veq c (0, 0, 0) ->
  same_motion atoms
    (set_momenta atoms (subtract_drift (get_momenta atoms) c (get_masses atoms))).
Proof.
  intros Hc. unfold same_motion.
  eapply Forall2_impl; [|apply (ExactFacts.subtract_drift_rows atoms c)].
  intros a a' [Hm Hp]. split; [exact Hm|]. rewrite Hp.
  destruct (momentum a) as [[px py] pz], c as [[cx cy] cz].
  unfold veq in *. simpl in *. destruct Hc as (Hx & Hy & Hz).
  rewrite Hx, Hy, Hz. repeat split; ring.
Qed.

Lemma at_rest_unchanged (atoms : Atoms Q) :
  ~ total_mass atoms == 0 ->
  veq (total_momentum atoms) (0, 0, 0) ->
  same_motion atoms (removed atoms).
Proof.
  intros Hmass Hrest. apply zero_drift_rows.
  unfold com_velocity_of. unfold total_momentum in Hrest.
  destruct (Np.sum_axis0 (get_momenta atoms)) as [[px py] pz].
  unfold veq in *. simpl in *. destruct Hrest as (Hx & Hy & Hz).
  rewrite Hx, Hy, Hz. unfold Qdiv. repeat split; ring.
Qed.

(** X2.  In exact arithmetic, a system of non-zero total mass whose total
    momentum is already zero is returned as it is: same masses, equal
    momenta. *)
Theorem remove_COM_velocity_at_rest (atoms : Atoms Q) :
  ~ total_mass atoms == 0 ->
  veq (total_momentum atoms) (0, 0, 0) ->
  exists atoms', remove_COM_velocity atoms = Py.Ok atoms' /\ same_motion atoms atoms'.
Proof.
  intros Hmass Hrest. exists (removed atoms).
  split; [reflexivity | apply at_rest_unchanged; assumption].
Qed.

(** X3.  In exact arithmetic [remove_COM_velocity] is idempotent on systems
    of non-zero total mass: applied to its own result it changes no
    momentum. *)
Theorem remove_COM_velocity_idempotent (atoms : Atoms Q) :
  ~ total_mass atoms == 0 ->
  exists once twice,
    remove_COM_velocity atoms = Py.Ok once /\
    remove_COM_velocity once = Py.Ok twice /\
    same_motion once twice.
Proof.
  intros Hmass. exists (removed atoms), (removed (removed atoms)).
  split; [reflexivity|]. split; [reflexivity|].
  apply at_rest_unchanged.
  - rewrite removed_total_mass. exact Hmass.
  - apply removed_total_momentum, Hmass.
Qed.


Lemma boost_masses (u : @Np.vec Q) (atoms : Atoms Q) :
  get_masses (boost u atoms) = get_masses atoms.
Proof. unfold boost, get_masses. rewrite map_map. reflexivity. Qed.

Section BoostComponent.
Variable pr : @Np.vec Q -> Q.
Hypothesis pr_zero : pr Np.vzero == 0.
Hypothesis pr_add : forall u v, pr (Np.vadd u v) == pr u + pr v.
Hypothesis pr_scale : forall v c, pr (Np.vscale v c) == pr v * c.
Hypothesis pr_div : forall v c, pr (Np.vdiv v c) == pr v / c.

(** A boost by [u] raises each column sum of the momenta by [u] times the
    total mass. *)
Lemma boost_column_sum (u : @Np.vec Q) (atoms : Atoms Q) :
  qsum (map pr (get_momenta (boost u atoms)))
  == qsum (map pr (get_momenta atoms)) + pr u * qsum (get_masses atoms).
Proof.
  unfold boost, get_momenta, get_masses.
  induction atoms as [|a atoms IH]; simpl.
  - ring.
  - rewrite IH, pr_add, pr_scale. ring.
Qed.

(** ... and so raises the centre-of-mass velocity by [u]. *)
Lemma boost_com_velocity (u : @Np.vec Q) (atoms : Atoms Q) :
  ~ total_mass atoms == 0 ->
  pr (com_velocity_of (boost u atoms)) == pr (com_velocity_of atoms) + pr u.
Proof.
  intros Hmass. unfold com_velocity_of.
  rewrite !pr_div, !(ExactFacts.sum_axis0_component pr pr_zero pr_add).
  rewrite boost_column_sum, boost_masses.
  unfold total_mass in Hmass. rewrite ExactFacts.sum_qsum in *.
  field. exact Hmass.
Qed.

End BoostComponent.

Lemma boost_com_velocity_rows (u : @Np.vec Q) (atoms : Atoms Q) :
  ~ total_mass atoms == 0 ->
  veq (com_velocity_of (boost u atoms)) (Np.vadd (com_velocity_of atoms) u).
Proof.
  intros Hmass.
  pose proof (boost_com_velocity (fun v => fst (fst v))) as Hx.
  pose proof (boost_com_velocity (fun v => snd (fst v))) as Hy.
  pose proof (boost_com_velocity (fun v => snd v)) as Hz.
  specialize (Hx ltac:(reflexivity)). specialize (Hy ltac:(reflexivity)).
  specialize (Hz ltac:(reflexivity)).
  assert (Hcomp : forall pr : @Np.vec Q -> Q,
             (pr = (fun v => fst (fst v)) \/ pr = (fun v => snd (fst v)) \/ pr = (fun v => snd v)) ->
             (forall a b, pr (Np.vadd a b) == pr a + pr b) /\
             (forall v c, pr (Np.vscale v c) == pr v * c) /\
             (forall v c, pr (Np.vdiv v c) == pr v / c)).
  { intros pr [-> | [-> | ->]]; repeat split;
      intros [[a b] c]; try intros [[a' b'] c']; try intros k; reflexivity. }
  destruct (Hcomp _ (or_introl eq_refl)) as (Ax & Sx & Dx).
  destruct (Hcomp _ (or_intror (or_introl eq_refl))) as (Ay & Sy & Dy).
  destruct (Hcomp _ (or_intror (or_intror eq_refl))) as (Az & Sz & Dz).
  specialize (Hx Ax Sx Dx u atoms Hmass).
  specialize (Hy Ay Sy Dy u atoms Hmass).
  specialize (Hz Az Sz Dz u atoms Hmass).
  unfold veq. rewrite Hx, Hy, Hz.
  destruct (com_velocity_of atoms) as [[cx cy] cz], u as [[ux uy] uz].
  simpl. repeat split; reflexivity.
Qed.

(** When the drift subtracted from the boosted system exceeds by [u] the one
    subtracted from the system itself, the two results agree. *)
Lemma boost_rows (u c c' : @Np.vec Q) (atoms : Atoms Q) :
  veq c' (Np.vadd c u) ->
  same_motion
    (set_momenta atoms (subtract_drift (get_momenta atoms) c (get_masses atoms)))
    (set_momenta (boost u atoms)
       (subtract_drift (get_momenta (boost u atoms)) c' (get_masses (boost u atoms)))).
Proof.
  intros Hc. unfold same_motion.
  induction atoms as [|a atoms IH]; simpl; constructor; [|exact IH].
  split; [reflexivity|].
  destruct (momentum a) as [[px py] pz], c as [[cx cy] cz], c' as [[dx dy] dz],
           u as [[ux uy] uz].
  unfold veq in *. simpl in *. destruct Hc as (Hx & Hy & Hz).
  rewrite Hx, Hy, Hz. repeat split; ring.
Qed.

(** X5.  In exact arithmetic the result of [remove_COM_velocity] does not
    depend on a uniform velocity added to the whole system beforehand: for a
    system of non-zero total mass, the system and the boosted system are
    sent to the same momenta. *)
Theorem remove_COM_velocity_forgets_boost (u : @Np.vec Q) (atoms : Atoms Q) :
  ~ total_mass atoms == 0 ->
  exists plain boosted,
    remove_COM_velocity atoms = Py.Ok plain /\
    remove_COM_velocity (boost u atoms) = Py.Ok boosted /\
    same_motion plain boosted.
Proof.
  intros Hmass. eexists. eexists. split; [reflexivity|]. split; [reflexivity|].
  apply boost_rows. apply boost_com_velocity_rows, Hmass.
Qed.

(** X2 on two particles of masses 2 and 3 with opposite momenta. *)
Lemma remove_COM_velocity_at_rest_witness :
  exists atoms',
    remove_COM_velocity [mkAtom 2 (1, 2, 3); mkAtom 3 (-(1), -(2), -(3))] = Py.Ok atoms' /\
    same_motion [mkAtom 2 (1, 2, 3); mkAtom 3 (-(1), -(2), -(3))] atoms'.
Proof.
  apply (remove_COM_velocity_at_rest [mkAtom 2 (1, 2, 3); mkAtom 3 (-(1), -(2), -(3))]).
  - discriminate.
  - repeat split.
Defined.

(** X3 on the sample system. *)
Lemma remove_COM_velocity_idempotent_witness :
  exists once twice,
    remove_COM_velocity Sample.atoms = Py.Ok once /\
    remove_COM_velocity once = Py.Ok twice /\
    same_motion once twice.
Proof.
  apply (remove_COM_velocity_idempotent Sample.atoms). discriminate.
Defined.


(** X5 on the sample system boosted by (7, 0, -1). *)
Lemma remove_COM_velocity_forgets_boost_witness :
  exists plain boosted,
    remove_COM_velocity Sample.atoms = Py.Ok plain /\
    remove_COM_velocity (boost (7, 0, -(1)) Sample.atoms) = Py.Ok boosted /\
    same_motion plain boosted.
Proof.
  apply (remove_COM_velocity_forgets_boost (7, 0, -(1)) Sample.atoms). discriminate.
Defined.

End DriftFacts.

(* ===================================================================== *)
(** * Further properties: the command line                                *)
(* ===================================================================== *)

Module CommandLineFacts.
Import Argparse.
Import Stated.

Lemma convert_length (v : list string) :
  forall zs, convert v = Some zs -> List.length zs = List.length v.
Proof.
  induction v as [|s v IH]; simpl; intros zs Hv.
  - injection Hv as <-. reflexivity.
  - destruct (Py.int s); [|discriminate].
    destruct (convert v) as [zs'|]; [|discriminate].
    injection Hv as <-. simpl. f_equal. apply IH. reflexivity.
Qed.

Lemma never_parsed_with_extras (l : list (arg_kind * string)) (st : positional)
    (zs : list Z) :
  consume l st true = Parsed zs -> False.
Proof.
  apply ArgparseFacts.doomed_never_parsed. left. reflexivity.
Qed.

(** Once inside the run, a command line that parses holds nothing but
    positional strings, and the sizes are their conversions. *)
Lemma consume_collecting_sound (l : list (arg_kind * string)) :
  forall run b extras zs,
    consume l (Collecting run b) extras = Parsed zs ->
    convert (run ++ values l) = Some zs /\ (b = true \/ values l <> []).
Proof.
  induction l as [|[k s] rest IH]; intros run b extras zs Hrun.
  - simpl in Hrun. destruct b; simpl in Hrun; [|discriminate].
    destruct (convert run) as [zs0|] eqn:E; [|discriminate].
    destruct extras; [discriminate|]. injection Hrun as <-.
    unfold values. simpl. rewrite app_nil_r. auto.
  - destruct k; cbn [consume] in Hrun.
    + apply IH in Hrun as [Hconv _]. unfold values in *. simpl.
      rewrite <- app_assoc in Hconv. split; [exact Hconv | right; discriminate].
    + apply IH in Hrun. exact Hrun.
    + destruct (settle (Collecting run b) extras) as [[st' e']|]; discriminate.
    + destruct (settle (Collecting run b) extras) as [[st' e']|]; discriminate.
    + destruct (settle (Collecting run b) extras) as [[st' e']|]; [|discriminate].
      exfalso. apply (never_parsed_with_extras _ _ _ Hrun).
Qed.

Lemma consume_pending_sound (l : list (arg_kind * string)) :
  forall extras zs,
    consume l Pending extras = Parsed zs ->
    convert (values l) = Some zs /\ values l <> [].
Proof.
  induction l as [|[k s] rest IH]; intros extras zs Hrun.
  - simpl in Hrun. discriminate.
  - destruct k; cbn [consume] in Hrun.
    + apply consume_collecting_sound in Hrun as [Hconv _].
      unfold values in *. simpl in *. split; [exact Hconv | discriminate].
    + apply consume_collecting_sound in Hrun as [Hconv [Hb | Hne]]; [discriminate|].
      unfold values in *. simpl in *. split; assumption.
    + simpl in Hrun. discriminate.
    + simpl in Hrun. discriminate.
    + simpl in Hrun. exfalso. apply (never_parsed_with_extras _ _ _ Hrun).
Qed.

Lemma classify_separator : classify "--" = KDashDash.
Proof. reflexivity. Qed.

Lemma values_after_separator (args : list string) : values (kinds true args) = args.
Proof.
  unfold values. induction args as [|s args IH]; simpl; [reflexivity|].
  f_equal. exact IH.
Qed.

Lemma values_kinds (args : list string) :
  values (kinds false args) = remove_first "--" args.
Proof.
  induction args as [|s args IH]; [reflexivity|].
  cbn [kinds remove_first].
  destruct (String.eqb_spec s "--") as [->|Hs].
  - rewrite classify_separator. unfold values. simpl.
    apply values_after_separator.
  - destruct (classify s) eqn:E.
    2: { apply ArgparseFacts.classify_dashdash in E. contradiction. }
    all: unfold values in *; simpl; f_equal; exact IH.
Qed.

(** X6.  When the parser accepts a command line, the sizes it hands to the
    loop are never an empty list, and they are exactly the arguments, in
    their order and less the separator "--", each converted by [int]. *)
Theorem parse_args_sound (args : list string) (sizes : list Z) :
  parse_args args = Parsed sizes ->
  sizes <> [] /\
  List.length sizes = List.length (remove_first "--" args) /\
  convert (remove_first "--" args) = Some sizes.
Proof.
  unfold parse_args. intros Hparse.
  apply consume_pending_sound in Hparse as [Hconv Hne].
  rewrite values_kinds in Hconv, Hne.
  pose proof (convert_length _ _ Hconv) as Hlen.
  repeat split; try assumption.
  intros ->. simpl in Hlen. destruct (remove_first "--" args); [congruence | discriminate].
Qed.

Lemma parse_args_sound_nonempty (args : list string) (sizes : list Z) :
  parse_args args = Parsed sizes -> exists first rest, sizes = first :: rest.
Proof.
  unfold parse_args. intros Hparse.
  apply consume_pending_sound in Hparse as [Hconv Hne].
  apply convert_length in Hconv.
  destruct sizes as [|first rest]; [|eexists; eexists; reflexivity].
  destruct (values (kinds false args)); [congruence | discriminate].
Qed.

(** X6 on a command line with the separator between two sizes. *)
Lemma parse_args_sound_witness :
  [10; 20] <> [] /\
  List.length [10; 20] = List.length (remove_first "--" ["10"; "--"; "20"]) /\
  convert (remove_first "--" ["10"; "--"; "20"]) = Some [10; 20].
Proof.
  apply (parse_args_sound ["10"; "--"; "20"] [10; 20]). reflexivity.
Defined.

(** A help flag in first position ends the parser with status 0, whatever
    follows it on the command line. *)
Lemma parse_args_help_first (rest : list string) :
  parse_args ("-h" :: rest) = ParserExit 0 /\
  parse_args ("--help" :: rest) = ParserExit 0.
Proof. split; reflexivity. Qed.

End CommandLineFacts.

(* ===================================================================== *)
(** * Further properties: the evaluation loop                             *)
(* ===================================================================== *)

Module LoopFacts.
Import ModelEvaluation.
Import Stated.

Lemma prefix_append (a b : string) : String.prefix a (a ++ b) = true.
Proof.
  induction a as [|c a IH]; simpl.
  - destruct b; reflexivity.
  - destruct (ascii_dec c c) as [_|Hc]; [exact IH | congruence].
Qed.

Lemma contains_prefix (sub s : string) :
  String.prefix sub s = true -> Py.contains sub s = true.
Proof. destruct s; cbn [Py.contains]; intros ->; reflexivity. Qed.

Lemma contains_append (sub pre suf : string) :
  Py.contains sub (pre ++ sub ++ suf) = true.
Proof.
  induction pre as [|c pre IH].
  - change (Py.contains sub (sub ++ suf) = true).
    apply contains_prefix, prefix_append.
  - cbn [append Py.contains]. rewrite IH. apply orb_true_r.
Qed.

(** X7.  For every size, the model path and the output path handed to the
    evaluation contain the decimal rendering of that size. *)
Theorem paths_contain_size (size : Z) :
  Py.contains (Py.str size) (test_model size) = true /\
  Py.contains (Py.str size) (test_output size) = true.
Proof. split; apply contains_append. Qed.

Section Script.
Variable mace_eval_configs_main : nat -> list string -> Py.result unit.

#[local] Abbreviation for_each := (ModelEvaluation.for_each mace_eval_configs_main).
#[local] Abbreviation run_script := (ModelEvaluation.run_script mace_eval_configs_main).

(** The loop prints its line once for each evaluation it starts. *)
Lemma for_each_stdout (sizes : list Z) :
  forall p, exists calls,
    evaluations (snd (for_each sizes p)) = (evaluations p ++ calls)%list /\
    stdout (snd (for_each sizes p))
    = (stdout p ++ repeat progress_line (List.length calls))%list.
Proof.
  induction sizes as [|size rest IH]; intros p.
  - exists []. simpl. rewrite !app_nil_r. split; reflexivity.
  - rewrite ModelEvaluationFacts.for_each_cons, ModelEvaluationFacts.loop_body_run.
    destruct (mace_eval_configs_main (List.length (evaluations p)) (eval_argv size))
      as [[]|e].
    + destruct (IH (mkProcess (eval_argv size) (stdout p ++ ["Evaluating test set..."])
                              (evaluations p ++ [eval_argv size]))) as (calls & Hev & Hout).
      exists (eval_argv size :: calls). simpl evaluations in *. simpl stdout in *.
      rewrite Hev, Hout, <- !app_assoc. split; reflexivity.
    + exists [eval_argv size]. split; reflexivity.
Qed.

(** A loop over a non-empty list starts with the evaluation of its first
    size. *)
Lemma for_each_first (size : Z) (rest : list Z) (p : process) :
  exists calls,
    evaluations (snd (for_each (size :: rest) p))
    = (evaluations p ++ eval_argv size :: calls)%list.
Proof.
  rewrite ModelEvaluationFacts.for_each_cons, ModelEvaluationFacts.loop_body_run.
  destruct (mace_eval_configs_main (List.length (evaluations p)) (eval_argv size))
    as [[]|e].
  - destruct (ModelEvaluationFacts.for_each_sys_argv mace_eval_configs_main rest
                (mkProcess (eval_argv size) (stdout p ++ ["Evaluating test set..."])
                           (evaluations p ++ [eval_argv size]))) as (calls & Hev & _).
    exists calls. rewrite Hev. simpl. rewrite <- app_assoc. reflexivity.
  - exists []. reflexivity.
Qed.


(** X9.  When the parser accepts the command line there is a first size,
    and the script starts at least one evaluation, the first one being that
    of the first size. *)
Theorem parsed_sizes_start_an_evaluation (argv : list string) (sizes : list Z) :
  Argparse.parse_args (List.tl argv) = Argparse.Parsed sizes ->
  exists first rest calls,
    sizes = first :: rest /\
    evaluations (snd (run_script argv)) = eval_argv first :: calls.
Proof.
  intros Hparse.
  destruct (CommandLineFacts.parse_args_sound_nonempty _ _ Hparse) as (first & rest & ->).
  exists first, rest.
  rewrite (ModelEvaluationFacts.run_script_parsed _ _ _ Hparse).
  destruct (for_each_first first rest (mkProcess argv [] [])) as (calls & Hev).
  exists calls. split; [reflexivity | exact Hev].
Qed.

(** X10.  With [-h] or [--help] as the first argument the script exits with
    status 0 before anything is printed by the loop or evaluated, whatever
    else is on the command line. *)
Theorem help_flag_exits_before_the_loop (argv0 : string) (rest : list string) :
  run_script (argv0 :: "-h" :: rest)
  = (Py.Raise (Py.SystemExit 0), mkProcess (argv0 :: "-h" :: rest) [] []) /\
  run_script (argv0 :: "--help" :: rest)
  = (Py.Raise (Py.SystemExit 0), mkProcess (argv0 :: "--help" :: rest) [] []).
Proof.
  split; apply ModelEvaluationFacts.run_script_exit; simpl List.tl;
    apply CommandLineFacts.parse_args_help_first.
Qed.

End Script.

(** X9 on the command line 10 20 and an entry point that raises at once. *)
Lemma parsed_sizes_start_an_evaluation_witness :
  exists first rest calls,
    [10; 20] = first :: rest /\
    evaluations (snd (ModelEvaluation.run_script
                        (fun _ _ => Py.Raise (Py.Exception "FileNotFoundError"))
                        ["model_evaulation.py"; "10"; "20"]))
    = eval_argv first :: calls.
Proof.
  apply (parsed_sizes_start_an_evaluation
           (fun _ _ => Py.Raise (Py.Exception "FileNotFoundError"))
           ["model_evaulation.py"; "10"; "20"] [10; 20]).
  reflexivity.
Defined.

End LoopFacts.

(* ===================================================================== *)
(** * Further properties: the elapsed time of a diagnostics line          *)
(* ===================================================================== *)

Module ClockFacts.
Import CaCO3MD.
Local Open Scope Q_scope.

Lemma Qfloor_unique (y : Q) (n : Z) :
  inject_Z n <= y -> y < inject_Z (n + 1) -> Qfloor y = n.
Proof.
  intros Hlo Hhi.
  pose proof (Qfloor_le y) as Hfl. pose proof (Qlt_floor y) as Hfu.
  assert (H1 : (n < Qfloor y + 1)%Z).
  { rewrite Zlt_Qlt. apply (Qle_lt_trans _ y); assumption. }
  assert (H2 : (Qfloor y < n + 1)%Z).
  { rewrite Zlt_Qlt. apply (Qle_lt_trans _ y); assumption. }
  lia.
Qed.

(** On a non-negative number [int] is the floor. *)
Lemma int_of_floor (r : Q) : 0 <= r -> int_of r = Qfloor r.
Proof.
  destruct r as [n d]. unfold Qle, int_of, Qfloor. simpl. intros Hn.
  apply Z.quot_div_nonneg; lia.
Qed.

(** [divmod(x, 60)] followed by the two [int] conversions splits the whole
    seconds of [x] into minutes and seconds. *)
Lemma divmod60_splits (x : Q) :
  (0 <= int_of (snd (divmod60 x)) < 60)%Z /\
  (60 * int_of (fst (divmod60 x)) + int_of (snd (divmod60 x)))%Z = Qfloor x.
Proof.
  unfold divmod60. cbn [fst snd].
  rewrite ScriptFacts.int_of_inject_Z.
  set (k := Qfloor (x / 60)).
  pose proof (Qfloor_le (x / 60)) as Hlo. pose proof (Qlt_floor (x / 60)) as Hhi.
  fold k in Hlo, Hhi. rewrite inject_Z_plus in Hhi.
  assert (Hx : x == 60 * (x / 60)) by (field).
  set (y := x / 60) in *.
  assert (Hr0 : 0 <= x - 60 * inject_Z k).
  { rewrite Hx. setoid_replace (60 * y - 60 * inject_Z k) with (60 * (y - inject_Z k)) by ring.
    apply Qmult_le_0_compat; [discriminate|].
    setoid_replace 0 with (inject_Z k - inject_Z k) by ring.
    apply Qplus_le_l. exact Hlo. }
  assert (Hr60 : x - 60 * inject_Z k < 60).
  { rewrite Hx.
    setoid_replace (60 * y - 60 * inject_Z k) with (60 * (y - inject_Z k)) by ring.
    setoid_replace 60 with (60 * 1) at 2 by ring.
    apply Qmult_lt_l; [reflexivity|].
    setoid_replace 1 with (inject_Z k + inject_Z 1 - inject_Z k) by ring.
    apply Qplus_lt_l. exact Hhi. }
  rewrite (int_of_floor _ Hr0).
  set (r := x - 60 * inject_Z k) in *.
  pose proof (Qfloor_le r) as Hfl. pose proof (Qlt_floor r) as Hfu.
  split.
  - split.
    + change 0%Z with (Qfloor 0). apply Qfloor_resp_le, Hr0.
    + rewrite Zlt_Qlt. apply (Qle_lt_trans _ r); assumption.
  - symmetry. apply Qfloor_unique.
    + rewrite inject_Z_plus, inject_Z_mult.
      setoid_replace x with (60 * inject_Z k + r) by (unfold r; ring).
      apply Qplus_le_r. exact Hfl.
    + rewrite <- Z.add_assoc, inject_Z_plus, inject_Z_mult.
      setoid_replace x with (60 * inject_Z k + r) at 1 by (unfold r; ring).
      apply Qplus_lt_r. exact Hfu.
Qed.

Section Script.
Context {F : Type}.
Variable kB : Q.
Variable get_potential_energy : Atoms F -> Py.result Q.
Variable get_kinetic_energy : Atoms F -> Q.
Variable time_time : nat -> Q.

(** X11.  Every line [printenergy] prints carries a number of seconds
    between 0 and 59, and its minutes and seconds add up to the whole number
    of seconds elapsed since [start_time]:
    60 * minutes + seconds = floor(time.time() - start_time). *)
Theorem printenergy_elapsed_time (w w' : @world F) :
  printenergy kB get_potential_energy get_kinetic_energy time_time w = Py.Ok w' ->
  exists line,
    console w' = (console w ++ [line])%list /\
    (0 <= elapsed_seconds line < 60)%Z /\
    (60 * elapsed_minutes line + elapsed_seconds line)%Z
    = Qfloor (time_time (clock_reads w) - start_time w).
Proof.
  unfold printenergy.
  destruct (get_potential_energy (CaCO3 w)) as [potential|e]; [|discriminate].
  destruct (truediv potential (List.length (CaCO3 w))) as [epot|e]; [|discriminate].
  destruct (truediv (get_kinetic_energy (CaCO3 w)) (List.length (CaCO3 w))) as [ekin|e];
    [|discriminate].
  pose proof (divmod60_splits (time_time (clock_reads w) - start_time w)) as Hsplit.
  destruct (divmod60 (time_time (clock_reads w) - start_time w)) as [elapsed_min elapsed_sec].
  intros [= <-]. eexists. split; [reflexivity|]. exact Hsplit.
Qed.

End Script.

(** X11 on the sample world, 75 s after the start. *)
Lemma printenergy_elapsed_time_witness :
  exists w' line,
    printenergy Sample.kB Sample.get_potential_energy Sample.get_kinetic_energy
                Sample.time_time (mkWorld Sample.atoms 0 1 [] [] []) = Py.Ok w' /\
    console w' = [line] /\
    (0 <= elapsed_seconds line < 60)%Z /\
    (60 * elapsed_minutes line + elapsed_seconds line)%Z = 75%Z.
Proof.
  eexists.
  assert (E : printenergy Sample.kB Sample.get_potential_energy Sample.get_kinetic_energy
                Sample.time_time (mkWorld Sample.atoms 0 1 [] [] []) = Py.Ok _)
    by reflexivity.
  destruct (printenergy_elapsed_time _ _ _ _ _ _ E) as (line & Hc & Hs & Ht).
  exists line. split; [exact E|]. split; [exact Hc|]. split; [exact Hs | exact Ht].
Defined.

End ClockFacts.
